(** * Plant-ChatBot: the conversational retrieval pipeline and its session store

    A shallow embedding of [ragbase/session_history.py], [ragbase/chain.py]
    and [ragbase/retriever.py], with the properties of the specification
    stated and proved over it. The vector store, the document compressors
    and the chat model are external collaborators, taken as values of record
    types that hold their behaviour; the runnable framework that [chain.py]
    composes is modelled in the module [Runtime].

    Conventions.
    - A Python [str] is a [string]; characters are code points below 256.
    - A [datetime] is a number of microseconds on the wall clock ([Z]); a
      [timedelta] is a difference of two of them.
    - Python objects that are shared by reference (the [ChatMessageHistory]
      of a session) live in an object heap and are named by a reference;
      the session dictionary stores references, not copies.
    - Stateful code runs in a state monad over the process state. *)

From Stdlib Require Import ZArith String Ascii List Bool Lia.
From stdpp Require Import gmap strings list fin_maps.

Local Open Scope string_scope.
Local Open Scope Z_scope.

(** ** Messages and the object heap *)

Module Messages.

(** [SystemMessage], [HumanMessage] and [AIMessage] of langchain_core:
    only the role and the text matter here. *)
Inductive Role : Type := system | human | ai.

Record BaseMessage : Type := mkMessage { role : Role; content : string }.

Definition SystemMessage (text : string) : BaseMessage := mkMessage system text.
Definition HumanMessage (text : string) : BaseMessage := mkMessage human text.
Definition AIMessage (text : string) : BaseMessage := mkMessage ai text.

End Messages.
Export Messages.

(** A reference to a [ChatMessageHistory] object. *)
Abbreviation ref := positive (only parsing).

(** ** [ragbase/session_history.py] *)

Module SessionHistory.

(** The dictionary stored per session id:
    [{'history': ..., 'created_at': ..., 'last_accessed': ...}]. *)
Record SessionData : Type := mkSessionData {
  history : ref;
  created_at : Z;
  last_accessed : Z
}.

(** [class SessionManager]: [self.sessions] and [self.session_timeout]. *)
Record SessionManager : Type := mkSessionManager {
  sessions : gmap string SessionData;
  session_timeout : Z
}.

(** The process state: the [messages] list of every allocated
    [ChatMessageHistory], and the global [session_manager]. *)
Record State : Type := mkState {
  heap : gmap ref (list BaseMessage);
  session_manager : SessionManager
}.

(** [timedelta(hours=1)], in microseconds. *)
Definition hours (n : Z) : Z := n * 3600 * 1000000.

(** [SessionManager.__init__] *)
Definition SessionManager_init : SessionManager :=
  {| sessions := ∅; session_timeout := hours 1 |}.

(** [session_manager = SessionManager()] at import time. *)
Definition initial_state : State :=
  {| heap := ∅; session_manager := SessionManager_init |}.

(** *** The state monad of the module *)

Definition St (A : Type) : Type := State → A * State.

#[global] Instance St_ret : MRet St := λ A a σ, (a, σ).
#[global] Instance St_bind : MBind St :=
  λ A B k m σ, let '(a, σ') := m σ in k a σ'.

Definition gets {A : Type} (f : State → A) : St A := λ σ, (f σ, σ).

Definition get_self : St SessionManager := gets session_manager.

Definition set_sessions (ss : gmap string SessionData) : St unit :=
  λ σ, (tt, {| heap := heap σ;
               session_manager :=
                 {| sessions := ss;
                    session_timeout := session_timeout (session_manager σ) |} |}).

(** [ChatMessageHistory()]: a new object, distinct from every live one,
    with an empty [messages] list. *)
Definition ChatMessageHistory_new : St ref :=
  λ σ, let r := fresh (dom (heap σ)) in
       (r, {| heap := <[r := []]> (heap σ);
              session_manager := session_manager σ |}).

(** [h.messages] *)
Definition messages (h : ref) (σ : State) : list BaseMessage :=
  default [] (heap σ !! h).

(** [h.add_messages(ms)] (and [h.add_message(m)] for a single one). *)
Definition add_messages (h : ref) (ms : list BaseMessage) : St unit :=
  λ σ, (tt, {| heap := <[h := (messages h σ ++ ms)%list]> (heap σ);
               session_manager := session_manager σ |}).

(** [current_time - session_data['last_accessed'] > self.session_timeout] *)
Definition is_expired (timeout current_time : Z) (session_data : SessionData) : bool :=
  bool_decide (timeout < current_time - last_accessed session_data).

(** [SessionManager._clean_expired_sessions]; [current_time] is the value
    its own [datetime.now()] returns. *)
Definition _clean_expired_sessions (current_time : Z) : St unit :=
  self ← get_self;
  let expired_sessions :=
    (List.filter (λ kv, is_expired (session_timeout self) current_time kv.2)
                 (map_to_list (sessions self))).*1 in
  set_sessions (foldl (λ ss session_id, delete session_id ss)
                      (sessions self) expired_sessions).

(** [SessionManager.get_session_history]. The method reads the clock twice:
    [current_time] is the reading of its first line, [sweep_time] the one
    taken inside [_clean_expired_sessions]. *)
Definition get_session_history (session_id : string)
    (current_time sweep_time : Z) : St ref :=
  _clean_expired_sessions sweep_time;;
  self ← get_self;
  match sessions self !! session_id with
  | None =>
      h ← ChatMessageHistory_new;
      set_sessions (<[session_id :=
                        {| history := h;
                           created_at := current_time;
                           last_accessed := current_time |}]> (sessions self));;
      mret h
  | Some session_data =>
      set_sessions (<[session_id :=
                        {| history := history session_data;
                           created_at := created_at session_data;
                           last_accessed := current_time |}]> (sessions self));;
      mret (history session_data)
  end.

(** The dictionary returned by [get_session_info]. *)
Record SessionInfo : Type := mkSessionInfo {
  info_created_at : Z;
  info_last_accessed : Z;
  message_count : nat
}.

(** [SessionManager.get_session_info] *)
Definition get_session_info (session_id : string) : St (option SessionInfo) :=
  self ← get_self;
  match sessions self !! session_id with
  | Some session_data =>
      msgs ← gets (messages (history session_data));
      mret (Some {| info_created_at := created_at session_data;
                    info_last_accessed := last_accessed session_data;
                    message_count := length msgs |})
  | None => mret None
  end.

(** *** Vocabulary of the properties of the store *)

(** The sessions of the global manager. *)
Definition store (σ : State) : gmap string SessionData :=
  sessions (session_manager σ).

(** The timeout of the global manager. *)
Definition timeout (σ : State) : Z := session_timeout (session_manager σ).

(** A session is stale at [now] when its last access is more than the
    timeout before [now]. *)
Definition stale (σ : State) (now : Z) (d : SessionData) : Prop :=
  timeout σ < now - last_accessed d.

(** The session a first access creates: a new history object, created
    and last accessed at [current_time]. *)
Definition new_session (σ : State) (current_time : Z) : SessionData :=
  {| history := fresh (dom (heap σ));
     created_at := current_time; last_accessed := current_time |}.

(** A session whose last access is moved to [current_time]. *)
Definition refreshed (current_time : Z) (d : SessionData) : SessionData :=
  {| history := history d; created_at := created_at d;
     last_accessed := current_time |}.

(** What the store holds of a session that survives an access: the same
    history object and creation time, with the last access refreshed when
    the session is the one accessed. *)
Definition accessed_entry (accessed sid : string) (current_time : Z)
    (d : SessionData) : SessionData :=
  if decide (sid = accessed) then refreshed current_time d else d.

(** The states the module can be in: the manager was built by [__init__]
    (the timeout is one hour), every session owns an allocated history
    object, and no two sessions share one. *)
Record wf (σ : State) : Prop := mkWf {
  wf_timeout : timeout σ = hours 1;
  wf_allocated : ∀ sid d, store σ !! sid = Some d → history d ∈ dom (heap σ);
  wf_separate : ∀ sid1 sid2 d1 d2,
    store σ !! sid1 = Some d1 → store σ !! sid2 = Some d2 →
    history d1 = history d2 → sid1 = sid2
}.

End SessionHistory.
Export SessionHistory.

(** ** Python values shared by the pipeline modules *)

Module Py.

(** [langchain_core.documents.Document] *)
Record Document : Type := mkDocument {
  page_content : string;
  metadata : list (string * string)
}.

(** Exceptions: the class matters only through [isinstance(e, Exception)]
    (what [except Exception] catches) and through the classes the
    repository itself raises. A [KeyError] carries the key that was looked
    up, the other classes their message. *)
Inductive PyExc : Type :=
  | Exception (msg : string)
  | KeyError (key : string)
  | AttributeError (msg : string)
  | RetrieverError (msg : string)
  | BaseException (msg : string).

(** [str(e)]: the message; for a [KeyError] the [repr] of the key, which
    for a key of letters, as the keys the code looks up are, is the key
    between single quotes. *)
Definition str (e : PyExc) : string :=
  match e with
  | KeyError key => "'" ++ key ++ "'"
  | Exception m | AttributeError m
  | RetrieverError m | BaseException m => m
  end.

(** [isinstance(e, Exception)]: false for [KeyboardInterrupt],
    [SystemExit], [asyncio.CancelledError], [GeneratorExit]. *)
Definition isinstance_Exception (e : PyExc) : bool :=
  match e with
  | BaseException _ => false
  | _ => true
  end.

Inductive result (A : Type) : Type :=
  | Ok (a : A)
  | Raise (e : PyExc).
Arguments Ok {A} a.
Arguments Raise {A} e.

(** ["\n"] *)
Definition nl : string := String "010" "".

(** [c.isspace()] on code points below 256, as [str.strip()] uses it. *)
Definition isspace (c : ascii) : bool :=
  let n := nat_of_ascii c in
  ((9 <=? n) && (n <=? 13) || (28 <=? n) && (n <=? 32)
   || (n =? 133) || (n =? 160))%nat.

Fixpoint lstrip (s : string) : string :=
  match s with
  | EmptyString => EmptyString
  | String c s' => if isspace c then lstrip s' else s
  end.

Fixpoint rstrip (s : string) : string :=
  match s with
  | EmptyString => EmptyString
  | String c s' =>
      match rstrip s' with
      | EmptyString => if isspace c then EmptyString else String c EmptyString
      | r => String c r
      end
  end.

(** [s.strip()] *)
Definition strip (s : string) : string := rstrip (lstrip s).

(** [re.sub(cls, '', s)] for a one-character class [cls]: every character
    of the class is deleted. *)
Fixpoint re_sub_delete (cls : ascii → bool) (s : string) : string :=
  match s with
  | EmptyString => EmptyString
  | String c s' =>
      if cls c then re_sub_delete cls s' else String c (re_sub_delete cls s')
  end.

(** [sep.join(l)] *)
Definition join (sep : string) (l : list string) : string := String.concat sep l.

(** [c in s] for a single character. *)
Fixpoint contains (c : ascii) (s : string) : bool :=
  match s with
  | EmptyString => false
  | String c' s' => (Ascii.eqb c c') || contains c s'
  end.

(** *** Code that produces output and may raise

    [Out O A]: the items produced so far (lines printed, events emitted,
    values yielded), then the outcome. *)
Definition Out (O A : Type) : Type := list O * result A.

#[global] Instance Out_ret {O : Type} : MRet (Out O) := λ A a, ([], Ok a).
#[global] Instance Out_bind {O : Type} : MBind (Out O) :=
  λ A B k m,
    match m with
    | (out, Ok a) => let '(out', r) := k a in ((out ++ out')%list, r)
    | (out, Raise e) => (out, Raise e)
    end.

Definition call {O A : Type} (r : result A) : Out O A := ([], r).
Definition tell {O : Type} (item : O) : Out O unit := ([item], Ok tt).
Definition raise {O A : Type} (e : PyExc) : Out O A := ([], Raise e).

(** [print(line)] *)
Definition print (line : string) : Out string unit := tell line.

(** [try: body except Exception as e: handler(e)] *)
Definition try_except {O A : Type}
    (body : Out O A) (handler : PyExc → Out O A) : Out O A :=
  match body with
  | (out, Raise e) =>
      if isinstance_Exception e
      then let '(out', r) := handler e in ((out ++ out')%list, r)
      else (out, Raise e)
  | ok => ok
  end.

End Py.
Export Py.

(** ** [ragbase/chain.py]: the context formatter *)

Module Formatter.

(** The character class [[{}\[\]]]. *)
Definition template_delimiter (c : ascii) : bool :=
  (Ascii.eqb c "{" || Ascii.eqb c "}" || Ascii.eqb c "[" || Ascii.eqb c "]")%char.

(** The two statements of the loop body that compute [content]. *)
Definition clean (doc : Document) : string :=
  let content := strip (page_content doc) in
  re_sub_delete template_delimiter content.

(** [format_documents]: the loop appends [content] and ["---"] to [texts]
    for each document, in order. *)
Definition format_documents (documents : list Document) : string :=
  let texts :=
    foldl (λ texts doc, texts ++ [clean doc] ++ ["---"])%list [] documents in
  join nl texts.

(** *** Vocabulary of the properties of the formatter *)

(** What one passage contributes to the context: its cleaned text and, on
    the next line, the delimiter. *)
Definition block (doc : Document) : string := clean doc ++ nl ++ "---".

(** [s.split("\n")] *)
Fixpoint split_lines (s : string) : list string :=
  match s with
  | EmptyString => [EmptyString]
  | String c s' =>
      if Ascii.eqb c "010" then EmptyString :: split_lines s'
      else match split_lines s' with
           | l :: ls => String c l :: ls
           | [] => [String c EmptyString]
           end
  end.

(** Some line of [s] is the delimiter. *)
Definition has_delimiter_line (s : string) : bool :=
  existsb (String.eqb "---") (split_lines s).

(** Reading a context back: the lines up to each delimiter line form one
    passage; [cur] holds the lines of the passage being read, last first. *)
Fixpoint passages_of_lines (cur : list string) (lines : list string)
    : list (list string) :=
  match lines with
  | [] => []
  | l :: rest =>
      if String.eqb "---" l then rev cur :: passages_of_lines [] rest
      else passages_of_lines (l :: cur) rest
  end.

Definition parse_context (context : string) : list string :=
  map (join nl) (passages_of_lines [] (split_lines context)).

End Formatter.
Export Formatter.

(** ** The external collaborators *)

Module Collaborators.

(** A vector store, seen through the one call the pipeline makes:
    similarity search for the [k] best passages. *)
Record VectorStore : Type := mkVectorStore {
  similarity_search : string → nat → result (list Document)
}.

(** A [BaseDocumentCompressor] (the reranker, or the LLM chain filter). *)
Record Compressor : Type := mkCompressor {
  compress_documents : list Document → string → result (list Document)
}.

(** The retrievers [create_retriever] can build. *)
Inductive Retriever : Type :=
  | VectorStoreRetriever (vectorstore : VectorStore)
                         (search_type : string) (k : nat)
  | ContextualCompressionRetriever (base_compressor : Compressor)
                                   (base_retriever : Retriever).

(** A chat model in streaming mode: the [content] of the chunks it
    produces for a prompt, then either the end of the stream or an
    exception. *)
Record BaseLanguageModel : Type := mkLLM {
  llm_name : string;
  stream : list BaseMessage → list string * option PyExc
}.

End Collaborators.
Export Collaborators.

(** ** [ragbase/retriever.py] *)

Module RetrieverPy.

(** What [create_retriever] takes from its environment: the settings of
    [Config.Retriever], and the outcome of the constructors it calls, which
    are not under the sources: [create_embeddings] and [create_reranker] of
    [ragbase.model], [Qdrant.from_existing_collection] and
    [LLMChainFilter.from_llm]. *)
Record Environment : Type := mkEnvironment {
  USE_RERANKER : bool;
  USE_CHAIN_FILTER : bool;
  TOP_K : nat;
  create_embeddings : result unit;
  from_existing_collection : result VectorStore;
  create_reranker : result Compressor;
  from_llm : BaseLanguageModel → result Compressor
}.

(** [create_retriever] *)
Definition create_retriever (env : Environment)
    (llm : BaseLanguageModel) (vector_store : option VectorStore) : Out string Retriever :=
  try_except
    (vector_store ←
       match vector_store with
       | Some vs => mret vs
       | None => call (create_embeddings env);; call (from_existing_collection env)
       end;
     let retriever := VectorStoreRetriever vector_store "similarity" (TOP_K env) in
     retriever ←
       (if USE_RERANKER env
        then try_except
               (base_compressor ← call (create_reranker env);
                mret (ContextualCompressionRetriever base_compressor retriever))
               (λ e, print ("Warning: Reranker initialization failed: " ++ str e);;
                     mret retriever)
        else mret retriever);
     retriever ←
       (if USE_CHAIN_FILTER env
        then try_except
               (base_compressor ← call (from_llm env llm);
                mret (ContextualCompressionRetriever base_compressor retriever))
               (λ e, print ("Warning: Chain filter initialization failed: " ++ str e);;
                     mret retriever)
        else mret retriever);
     mret retriever)
    (λ e, raise (RetrieverError ("Failed to create retriever: " ++ str e))).

(** *** Vocabulary of the properties of [create_retriever] *)

(** The base retriever: similarity search for the [TOP_K] best passages. *)
Definition base_retriever_of (env : Environment) (vs : VectorStore) : Retriever :=
  VectorStoreRetriever vs "similarity" (TOP_K env).

(** What an optional stage makes of the retriever of the prior stage: the
    compression retriever when the stage is enabled and its compressor
    initializes, the prior retriever otherwise. *)
Definition stage (enabled : bool) (init : result Compressor)
    (prior : Retriever) : Retriever :=
  if enabled
  then match init with
       | Ok base_compressor => ContextualCompressionRetriever base_compressor prior
       | Raise _ => prior
       end
  else prior.

(** The warning an optional stage prints: one line when it is enabled and
    its compressor fails to initialize. *)
Definition stage_warning (enabled : bool) (init : result Compressor)
    (warning : string) : list string :=
  if enabled
  then match init with
       | Ok _ => []
       | Raise e => [warning ++ str e]
       end
  else [].

(** The vector store [create_retriever] works on is available: it is
    passed in, or the existing collection opens. *)
Definition vector_store_available (env : Environment)
    (vector_store : option VectorStore) (vs : VectorStore) : Prop :=
  vector_store = Some vs
  ∨ (vector_store = None ∧ create_embeddings env = Ok tt
     ∧ from_existing_collection env = Ok vs).

End RetrieverPy.
Export RetrieverPy.

(** ** The event feed of the runnable framework *)

Module Events.

(** The values that travel in events and that [ask_question] yields. *)
Inductive PyValue : Type :=
  | PyStr (s : string)
  | PyDocs (documents : list Document)
  | PyMessageChunk (chunk_content : string).

(** [event["data"]]: a dictionary in which the keys ["output"] and
    ["chunk"] may be present. *)
Record EventData : Type := mkEventData {
  output : option PyValue;
  chunk : option PyValue
}.

(** A [StreamEvent] of [astream_events]: [event["event"]], [event["name"]]
    and [event["data"]]. *)
Record StreamEvent : Type := mkStreamEvent {
  event : string;
  name : string;
  data : EventData
}.

Definition no_data : EventData := {| output := None; chunk := None |}.
Definition output_data (v : PyValue) : EventData :=
  {| output := Some v; chunk := None |}.
Definition chunk_data (v : PyValue) : EventData :=
  {| output := None; chunk := Some v |}.

(** [d[key]] on an optional entry: [KeyError(key)] when it is missing. *)
Definition getitem {A : Type} (entry : option A) (key : string) : result A :=
  match entry with
  | Some v => Ok v
  | None => Raise (KeyError key)
  end.

(** [v.content] *)
Definition get_content (v : PyValue) : result string :=
  match v with
  | PyMessageChunk c => Ok c
  | PyStr _ => Raise (AttributeError "'str' object has no attribute 'content'")
  | PyDocs _ => Raise (AttributeError "'list' object has no attribute 'content'")
  end.

End Events.
Export Events.

(** ** The runnable framework

    [chain.py] composes the pipeline from parts of a runnable framework
    ([RunnableWithMessageHistory], [astream_events], retriever and chat
    model runs) whose code is not part of the repository. This module
    models those parts from the specification: the algorithm of the answer
    pipeline (session resolution, retrieval, context formatting, prompt
    assembly, streamed generation, history append on completion, failures
    ending the feed) and the raw feed that its event adapter narrows
    (start, end and stream events of every run, under the name of the run). *)

Module Runtime.

(** Modelled from the spec: the effects of framework code, which is absent
    from the repository. It changes the process state, emits events into
    the raw feed and may raise. *)
Definition Run (A : Type) : Type := State → Out StreamEvent A * State.

#[global] Instance Run_ret : MRet Run := λ A a σ, (mret a, σ).
#[global] Instance Run_bind : MBind Run :=
  λ A B k m σ,
    match m σ with
    | ((evs, Ok a), σ') =>
        let '((evs', r), σ'') := k a σ' in (((evs ++ evs')%list, r), σ'')
    | ((evs, Raise e), σ') => ((evs, Raise e), σ')
    end.

Definition lift_St {A : Type} (m : St A) : Run A :=
  λ σ, let '(a, σ') := m σ in (mret a, σ').
Definition lift_Out {A : Type} (m : Out StreamEvent A) : Run A := λ σ, (m, σ).
Definition emit (ev : StreamEvent) : Run unit := lift_Out (tell ev).

(** Modelled from the spec: the run name of a retriever for which no
    [run_name] is configured (the framework, absent from the repository,
    uses the class name). *)
Definition default_name (retriever : Retriever) : string :=
  match retriever with
  | VectorStoreRetriever _ _ _ => "VectorStoreRetriever"
  | ContextualCompressionRetriever _ _ => "ContextualCompressionRetriever"
  end.

(** Modelled from the spec: a retriever run of the framework (absent from
    the repository). The raw feed has its start event, the events of its
    body and, when the body returns, its end event with the documents. *)
Definition retriever_run (run_name : string)
    (body : Out StreamEvent (list Document)) : Out StreamEvent (list Document) :=
  tell (mkStreamEvent "on_retriever_start" run_name no_data);;
  documents ← body;
  tell (mkStreamEvent "on_retriever_end" run_name (output_data (PyDocs documents)));;
  mret documents.

(** Modelled from the spec: the body of a retriever run (library code absent
    from the repository). The retriever is similarity search, optionally
    followed by reranking and relevance filtering: a compression retriever
    runs its base retriever as a child run and compresses what that
    returns, unless it is empty. *)
Fixpoint _get_relevant_documents (retriever : Retriever) (query : string)
    : Out StreamEvent (list Document) :=
  match retriever with
  | VectorStoreRetriever vectorstore _ k =>
      call (similarity_search vectorstore query k)
  | ContextualCompressionRetriever base_compressor base_retriever =>
      docs ← retriever_run (default_name base_retriever)
                (_get_relevant_documents base_retriever query);
      match docs with
      | [] => mret []
      | _ :: _ => call (compress_documents base_compressor docs query)
      end
  end.

(** Modelled from the spec: [retriever.invoke(query)] under the run name
    [run_name] (library code absent from the repository). *)
Definition invoke (retriever : Retriever) (run_name : string) (query : string)
    : Out StreamEvent (list Document) :=
  retriever_run run_name (_get_relevant_documents retriever query).

(** Modelled from the spec: the events of one generated chunk (the
    framework is absent from the repository). The chunk is reported by the
    chat model run and by each enclosing chain run that streams it through
    ([parents], innermost first). *)
Definition chunk_events (llm : BaseLanguageModel) (parents : list string)
    (c : string) : list StreamEvent :=
  mkStreamEvent "on_chat_model_stream" (llm_name llm) (chunk_data (PyMessageChunk c))
  :: map (λ run_name,
            mkStreamEvent "on_chain_stream" run_name (chunk_data (PyMessageChunk c)))
         parents.

(** Modelled from the spec: the chat model run in streaming mode (library
    code absent from the repository). Each increment of generated text is
    emitted as it arrives, in generation order; a failure of the generator
    ends the run with its exception. *)
Definition astream (llm : BaseLanguageModel) (parents : list string)
    (messages : list BaseMessage) : Out StreamEvent (list string) :=
  tell (mkStreamEvent "on_chat_model_start" (llm_name llm) no_data);;
  let '(chunks, failure) := stream llm messages in
  (concat (map (chunk_events llm parents) chunks), Ok tt);;
  match failure with
  | Some e => raise e
  | None =>
      tell (mkStreamEvent "on_chat_model_end" (llm_name llm)
              (output_data (PyMessageChunk (String.concat "" chunks))));;
      mret chunks
  end.

(** Modelled from the spec: a runnable of the framework (absent from the
    repository), seen through the one thing the pipeline does with it: it
    answers a question in a session, producing a raw event feed. *)
Record Runnable : Type := mkRunnable {
  run : string → string → Z * Z → Run unit
}.

(** Modelled from the spec: [RunnableWithMessageHistory(runnable,
    get_session_history, input_messages_key, history_messages_key)
    .with_config({"run_name": ...})], library code absent from the
    repository. The history of the session is resolved first; the wrapped
    runnable runs on the question and the prior turns of the history; on
    stream completion all chunks are concatenated into the full answer, and
    the human turn with the question and the assistant turn with the full
    answer are appended to the history, in that order. A failure of the
    wrapped runnable ends the feed and leaves the history as it is. *)
Definition RunnableWithMessageHistory
    (runnable : string → list BaseMessage → list string → Out StreamEvent (list string))
    (get_session_history : string → Z → Z → St ref)
    (run_name : string) : Runnable :=
  {| run := λ question session_id clock,
       hist ← lift_St (get_session_history session_id clock.1 clock.2);
       emit (mkStreamEvent "on_chain_start" run_name no_data);;
       emit (mkStreamEvent "on_chain_start" "load_history" no_data);;
       chat_history ← lift_St (gets (messages hist));
       emit (mkStreamEvent "on_chain_end" "load_history" no_data);;
       chunks ← lift_Out (runnable question chat_history [run_name]);
       let full_answer := String.concat "" chunks in
       lift_St (add_messages hist [HumanMessage question; AIMessage full_answer]);;
       emit (mkStreamEvent "on_chain_end" run_name
               (output_data (PyMessageChunk full_answer))) |}.

(** Modelled from the spec: [chain.astream_events(input, config,
    version="v2", include_names=...)], library code absent from the
    repository. It passes the events of the runs whose name is listed
    through unchanged and in their original order, drops everything else,
    and ends as the raw feed ends. The clock readings that session
    resolution takes come with the call. *)
Definition astream_events (chain : Runnable) (question session_id : string)
    (clock : Z * Z) (include_names : list string) : Run unit :=
  λ σ, let '((events, r), σ') := run chain question session_id clock σ in
       ((List.filter (λ ev, bool_decide (name ev ∈ include_names)) events, r), σ').

End Runtime.
Export Runtime.

(** ** [ragbase/chain.py]: the pipeline *)

Module Chain.

(** [SYSTEM_PROMPT], as a function of the value of its one placeholder
    [{context}]. *)
Definition SYSTEM_PROMPT (context : string) : string :=
  nl ++ "You are a helpful plant shop assistant. Use the provided context to answer customer questions about plants."
  ++ nl ++ "When answering questions about prices, quantities, or other numeric values, be sure to state the exact number from the context."
  ++ nl ++ "If a question asks about a specific number (price, quantity, rating, etc.), provide the precise value."
  ++ nl ++ "If you cannot find the answer in the context, simply say that you don't have that information."
  ++ nl
  ++ nl ++ "Context:"
  ++ nl ++ context
  ++ nl
  ++ nl ++ "Always format prices with the $ symbol and be precise with numbers."
  ++ nl.

(** [ChatPromptTemplate.from_messages([("system", SYSTEM_PROMPT),
    MessagesPlaceholder("chat_history"), ("human", "{question}")])],
    formatted. *)
Definition prompt (context : string) (chat_history : list BaseMessage)
    (question : string) : list BaseMessage :=
  ([SystemMessage (SYSTEM_PROMPT context)] ++ chat_history
   ++ [HumanMessage question])%list.

(** The inner [chain] of [create_chain]:
    [RunnablePassthrough.assign(context=itemgetter("question")
       | retriever.with_config({"run_name": "context_retriever"})
       | format_documents) | prompt | llm],
    with the start and end events of the runs of its steps, under their
    run names. [parents] are the enclosing runs that stream its output. *)
Definition chain (llm : BaseLanguageModel) (retriever : Retriever)
    (question : string) (chat_history : list BaseMessage)
    (parents : list string) : Out StreamEvent (list string) :=
  tell (mkStreamEvent "on_chain_start" "RunnableSequence" no_data);;
  documents ← invoke retriever "context_retriever" question;
  tell (mkStreamEvent "on_chain_start" "format_documents" no_data);;
  let context := format_documents documents in
  tell (mkStreamEvent "on_chain_end" "format_documents" (output_data (PyStr context)));;
  tell (mkStreamEvent "on_prompt_start" "ChatPromptTemplate" no_data);;
  let messages := prompt context chat_history question in
  tell (mkStreamEvent "on_prompt_end" "ChatPromptTemplate" no_data);;
  chunks ← astream llm ("RunnableSequence" :: parents) messages;
  tell (mkStreamEvent "on_chain_end" "RunnableSequence"
          (output_data (PyMessageChunk (String.concat "" chunks))));;
  mret chunks.

(** [create_chain] *)
Definition create_chain (llm : BaseLanguageModel) (retriever : Retriever) : Runnable :=
  RunnableWithMessageHistory (chain llm retriever) get_session_history "chain_answer".

(** The body of the [async for] loop of [ask_question]. *)
Definition loop_body (ev : StreamEvent) : Out PyValue unit :=
  let event_type := event ev in
  (if String.eqb event_type "on_retriever_end"
   then v ← call (getitem (output (data ev)) "output"); tell v
   else mret tt);;
  (if String.eqb event_type "on_chain_stream"
   then v ← call (getitem (chunk (data ev)) "chunk");
        c ← call (get_content v);
        tell (PyStr c)
   else mret tt).

(** [async for event in feed: body(event)], where the feed delivers
    [events] and then ends with [feed_end]. *)
Fixpoint async_for (events : list StreamEvent) (feed_end : result unit)
    (body : StreamEvent → Out PyValue unit) : Out PyValue unit :=
  match events with
  | [] => call feed_end
  | ev :: rest => body ev;; async_for rest feed_end body
  end.

(** [ask_question]: the values the generator yields and how it ends, and
    the state once the feed is drained. *)
Definition ask_question (chain : Runnable) (question session_id : string)
    (clock : Z * Z) : State → Out PyValue unit * State :=
  λ σ,
    let '((events, feed_end), σ') :=
      astream_events chain question session_id clock
        ["context_retriever"; "chain_answer"] σ in
    (try_except
       (async_for events feed_end loop_body)
       (λ e, tell (PyStr ("Error processing question: " ++ str e))),
     σ').

(** *** Vocabulary of the properties of the pipeline *)

(** The error chunk [ask_question] yields for the exception [e]. *)
Definition error_chunk (e : PyExc) : PyValue :=
  PyStr ("Error processing question: " ++ str e).

(** The answer chunks among the values yielded, in yield order. *)
Definition answer_chunks (yielded : list PyValue) : list string :=
  omap (λ v, match v with PyStr s => Some s | _ => None end) yielded.

(** The retrieved-context events among the values yielded. *)
Definition context_events (yielded : list PyValue) : list (list Document) :=
  omap (λ v, match v with PyDocs d => Some d | _ => None end) yielded.

(** The two events the loop body yields for. *)
Definition retriever_end (run_name : string) (documents : list Document) : StreamEvent :=
  mkStreamEvent "on_retriever_end" run_name (output_data (PyDocs documents)).

Definition chain_stream (run_name : string) (c : string) : StreamEvent :=
  mkStreamEvent "on_chain_stream" run_name (chunk_data (PyMessageChunk c)).

(** The events the loop body reacts to. *)
Definition relevant (ev : StreamEvent) : bool :=
  String.eqb (event ev) "on_retriever_end"
  || String.eqb (event ev) "on_chain_stream".

(** The events of the raw feed that reach the loop body and make it act:
    relevant ones, of a run whose name is listed. *)
Definition delivered (ev : StreamEvent) : bool :=
  relevant ev
  && bool_decide (name ev ∈ ["context_retriever"; "chain_answer"]).

(** The session a call of [ask_question] resolves, and the state right
    after the resolution. *)
Definition resolved (session_id : string) (clock : Z * Z) (σ : State)
    : ref * State :=
  get_session_history session_id clock.1 clock.2 σ.

(** How the raw feed of a chain ends. *)
Definition feed_end (chain : Runnable) (question session_id : string)
    (clock : Z * Z) (σ : State) : result unit :=
  (run chain question session_id clock σ).1.2.

End Chain.
Export Chain.

(** ** Example collaborators *)

Module Examples.

Definition rose : Document :=
  mkDocument "Title: Rose" [("source", "product_data")].
Definition fern : Document :=
  mkDocument "Title: Fern" [("source", "product_data")].

(** A vector store that finds the same two passages for every query, the
    empty one included. *)
Definition example_store : VectorStore :=
  mkVectorStore (λ _ k, Ok (take k [rose; fern])).

Definition example_retriever : Retriever :=
  VectorStoreRetriever example_store "similarity" 5.

(** A chat model that answers every prompt in two chunks. *)
Definition example_llm : BaseLanguageModel :=
  mkLLM "ChatGroq" (λ _, (["Hel"; "lo"], None)).

(** A chat model that fails after its first chunk. *)
Definition failing_llm : BaseLanguageModel :=
  mkLLM "ChatGroq" (λ _, (["Hel"], Some (Exception "connection reset"))).

(** Default configuration ([USE_RERANKER] on, [USE_CHAIN_FILTER] off) in
    which the reranker model cannot be loaded. *)
Definition example_env : Environment :=
  {| USE_RERANKER := true; USE_CHAIN_FILTER := false; TOP_K := 5;
     create_embeddings := Ok tt;
     from_existing_collection := Ok example_store;
     create_reranker := Raise (Exception "model not found");
     from_llm := λ _, Raise (Exception "unused") |}.

End Examples.
Export Examples.

(** ** Histories of the store *)

Module SessionTraces.

(** The states the store goes through: the module is imported, then
    sessions are accessed, turns are appended to history objects and
    sessions are inspected, in any order. *)
Inductive reachable : State → Prop :=
  | reachable_initial : reachable initial_state
  | reachable_access (σ : State) (session_id : string) (current_time sweep_time : Z) :
      reachable σ →
      reachable (get_session_history session_id current_time sweep_time σ).2
  | reachable_append (σ : State) (h : ref) (ms : list BaseMessage) :
      reachable σ → reachable (add_messages h ms σ).2
  | reachable_info (σ : State) (session_id : string) :
      reachable σ → reachable (get_session_info session_id σ).2.

(** One session accessed again and again; each access comes with its two
    clock readings. *)
Fixpoint access_all (session_id : string) (clocks : list (Z * Z)) (σ : State) : State :=
  match clocks with
  | [] => σ
  | clock :: rest =>
      access_all session_id rest
        (get_session_history session_id clock.1 clock.2 σ).2
  end.

(** Every access sweeps at most [limit] after the last access before it
    ([last], then the first reading of the access before). *)
Fixpoint never_idle (limit last : Z) (clocks : list (Z * Z)) : Prop :=
  match clocks with
  | [] => True
  | clock :: rest => clock.2 - last ≤ limit ∧ never_idle limit clock.1 rest
  end.

(** The first clock reading of the last access, [last] when there is none. *)
Fixpoint last_access (last : Z) (clocks : list (Z * Z)) : Z :=
  match clocks with
  | [] => last
  | clock :: rest => last_access clock.1 rest
  end.

End SessionTraces.
Export SessionTraces.

(** ** Shape of a retriever *)

Module RetrieverShape.

(** The number of compression retrievers wrapped around the base
    retriever. *)
Fixpoint layers (retriever : Retriever) : nat :=
  match retriever with
  | VectorStoreRetriever _ _ _ => 0
  | ContextualCompressionRetriever _ base_retriever => S (layers base_retriever)
  end.

(** The retriever at the core of a retriever. *)
Fixpoint innermost (retriever : Retriever) : Retriever :=
  match retriever with
  | VectorStoreRetriever _ _ _ => retriever
  | ContextualCompressionRetriever _ base_retriever => innermost base_retriever
  end.

(** The number of optional stages the configuration enables. *)
Definition enabled_stages (env : Environment) : nat :=
  ((if USE_RERANKER env then 1 else 0) + (if USE_CHAIN_FILTER env then 1 else 0))%nat.

End RetrieverShape.
Export RetrieverShape.

(** ** The HTTP boundary: what [app.py] and [app_fastapi.py] share *)

Module Http.

(** How a request handler ends: it returns a value, it raises
    [HTTPException(status_code, detail)], or another exception escapes
    from it. *)
Inductive Outcome (A : Type) : Type :=
  | Return (a : A)
  | HTTPException (status_code : Z) (detail : string)
  | Escape (e : PyExc).
Arguments Return {A} a.
Arguments HTTPException {A} status_code detail.
Arguments Escape {A} e.

(** [x or y] for an optional string [x]: [x] unless it is [None] or empty. *)
Definition or_else (x : option string) (y : string) : string :=
  match x with
  | Some (String c s) => String c s
  | Some EmptyString | None => y
  end.

(** The loop of the [chat] handlers over the values [ask_question] yields:
    [if isinstance(event, str): response_chunks.append(event)]. *)
Definition collect_chunks (events : list PyValue) : list string :=
  foldl (λ response_chunks event,
           match event with
           | PyStr s => (response_chunks ++ [s])%list
           | _ => response_chunks
           end) [] events.

End Http.
Export Http.

(** ** [app.py] *)

Module App.

(** [class QuestionRequest(BaseModel)]: [session_id] is optional and
    defaults to [None]. *)
Record QuestionRequest : Type := mkQuestionRequest {
  question : string;
  session_id : option string
}.

(** [class ChatResponse(BaseModel)] *)
Record ChatResponse : Type := mkChatResponse {
  answer : string;
  response_session_id : string
}.

(** The keys of the dictionary [API_KEYS = {os.getenv("API_KEY"): ...}];
    [API_KEY] is the value of the environment variable, [None] when it is
    not set. *)
Definition API_KEYS (API_KEY : option string) : list (option string) := [API_KEY].

(** [get_api_key]; the header is [None] when the request has none
    ([auto_error=False]). *)
Definition get_api_key (API_KEYS : list (option string))
    (api_key_header : option string) : Outcome (option string) :=
  if bool_decide (api_key_header ∈ API_KEYS)
  then Return api_key_header
  else HTTPException 403 "Invalid or missing API Key".

(** [initialize_qa_chain]; [ingest] is the outcome of
    [JsonIngestor().ingest(json_path)] and [create_llm] that of
    [create_llm()]. The lines printed come with the outcome. *)
Definition initialize_qa_chain (env : Environment)
    (ingest : result VectorStore) (create_llm : result BaseLanguageModel)
    : list string * Outcome Runnable :=
  let body : Out string Runnable :=
    vector_store ← call ingest;
    llm ← call create_llm;
    retriever ← create_retriever env llm (Some vector_store);
    mret (create_chain llm retriever) in
  match body with
  | (out, Ok chain) => (out, Return chain)
  | (out, Raise e) =>
      if isinstance_Exception e
      then (out, HTTPException 500 ("Failed to initialize QA chain: " ++ str e))
      else (out, Escape e)
  end.

(** The [chat] handler; [timestamp] is the text of
    [datetime.now().timestamp()] in the generated session id. *)
Definition chat (qa_chain : Runnable) (request : QuestionRequest)
    (timestamp : string) (clock : Z * Z) : State → Outcome ChatResponse * State :=
  λ σ,
    let session_id := or_else (session_id request) ("session-" ++ timestamp) in
    let '((events, ending), σ') :=
      ask_question qa_chain (question request) session_id clock σ in
    let response_chunks := collect_chunks events in
    match ending with
    | Ok _ =>
        let full_response := String.concat "" response_chunks in
        (Return {| answer := full_response; response_session_id := session_id |}, σ')
    | Raise e =>
        if isinstance_Exception e
        then (HTTPException 500 ("Error processing request: " ++ str e), σ')
        else (Escape e, σ')
    end.

End App.

(** ** [app_fastapi.py] *)

Module AppFastapi.

(** [class QuestionRequest(BaseModel)]: here the model declares the
    question only. *)
Record QuestionRequest : Type := mkQuestionRequest {
  question : string
}.

(** [class ChatResponse(BaseModel)] *)
Record ChatResponse : Type := mkChatResponse {
  answer : string
}.

(** The keys of [API_KEYS = {os.getenv("API_KEY", "default-key"): ...}]. *)
Definition API_KEYS (API_KEY : option string) : list (option string) :=
  [Some (default "default-key" API_KEY)].

(** [get_api_key]; [DEBUG] is [Config.DEBUG]. *)
Definition get_api_key (DEBUG : bool) (API_KEYS : list (option string))
    (api_key_header : option string) : Outcome (option string) :=
  if DEBUG then Return (Some (or_else api_key_header "debug"))
  else if bool_decide (api_key_header ∈ API_KEYS)
  then Return api_key_header
  else HTTPException 403 "Invalid or missing API Key".

(** [request.session_id]: the model has no such field, the attribute
    access raises. *)
Definition getattr_session_id (request : QuestionRequest) : result (option string) :=
  Raise (AttributeError "'QuestionRequest' object has no attribute 'session_id'").

(** The [chat] handler; [qa_chain] is [None] until startup has run, and
    [str_HTTPException] is [str] on an [HTTPException]. The
    [HTTPException] raised inside the [try] is itself caught by its
    [except Exception]. *)
Definition chat (str_HTTPException : Z → string → string)
    (qa_chain : option Runnable) (request : QuestionRequest)
    (timestamp : string) (clock : Z * Z) : State → Outcome ChatResponse * State :=
  λ σ,
    match qa_chain with
    | None =>
        (HTTPException 500
           ("Error processing request: "
            ++ str_HTTPException 503
                 "Service is initializing. Please try again in a few moments."),
         σ)
    | Some qa_chain =>
        match getattr_session_id request with
        | Raise e =>
            if isinstance_Exception e
            then (HTTPException 500 ("Error processing request: " ++ str e), σ)
            else (Escape e, σ)
        | Ok request_session_id =>
            let session_id := or_else request_session_id ("session-" ++ timestamp) in
            let '((events, ending), σ') :=
              ask_question qa_chain (question request) session_id clock σ in
            let response_chunks := collect_chunks events in
            match ending with
            | Ok _ =>
                (Return {| answer := String.concat "" response_chunks |}, σ')
            | Raise e =>
                if isinstance_Exception e
                then (HTTPException 500 ("Error processing request: " ++ str e), σ')
                else (Escape e, σ')
            end
        end
    end.

End AppFastapi.

(** ** [ragbase/ingestor.py]: from catalog items to documents *)

Module Ingestor.

(** A value read by [json.load]. A float is kept as its text and whether
    it is different from zero, which is all the conversion looks at. *)
#[warnings="-register-all"]
Inductive JValue : Type :=
  | JNull
  | JBool (b : bool)
  | JInt (n : Z)
  | JFloat (text : string) (nonzero : bool)
  | JStr (s : string)
  | JList (elements : list JValue)
  | JDict (entries : list (string * JValue)).

(** An item of the catalog: a JSON object. *)
Abbreviation Item := (gmap string JValue) (only parsing).

(** The truth value of [v] in a condition. *)
Definition truthy (v : JValue) : bool :=
  match v with
  | JNull => false
  | JBool b => b
  | JInt n => negb (n =? 0)
  | JFloat _ nonzero => nonzero
  | JStr s => negb (String.eqb s "")
  | JList elements => match elements with [] => false | _ => true end
  | JDict entries => match entries with [] => false | _ => true end
  end.

(** A record of the logger: the level and the message. *)
Definition LogRecord : Type := string * string.

(** The documents the conversion builds; the metadata values are values of
    the item. *)
Record IngestedDocument : Type := mkIngestedDocument {
  page_content : string;
  metadata : list (string * JValue)
}.

(** How an optional field is shown: as it is, or, when it is a list,
    joined with a separator. *)
Inductive Transform : Type :=
  | as_is
  | joined (sep : string).

Definition required_fields : list string := ["title"; "description"; "price"].

Definition optional_fields : list (string * string * Transform) :=
  [("quantity", "Quantity Available", as_is);
   ("rating", "Rating", as_is);
   ("reviewsCount", "Reviews Count", as_is);
   ("size", "Size", joined ", ");
   ("sunlightRequirement", "Sunlight Requirement", as_is);
   ("waterFrequency", "Water Frequency", as_is);
   ("waterFrequencyDescription", "Water Frequency Description", as_is);
   ("place", "Location", as_is);
   ("growthRate", "Growth Rate", as_is);
   ("benefits", "Benefits", joined " ");
   ("category", "Category", as_is);
   ("nutritionalNeeds", "Nutritional Needs", as_is);
   ("seasonalAvailability", "Seasonal Availability", as_is);
   ("propagationMethod", "Propagation Method", joined " ");
   ("pestResistance", "Pest Resistance", as_is);
   ("toxicityLevel", "Toxicity Level", as_is)].

Definition tag_fields : list (string * string * Transform) :=
  [("tag", "tag", joined ", ");
   ("plantTags", "plantTags", joined ", ");
   ("promotionTags", "promotionTags", joined ", ");
   ("plantAccessories", "plantAccessories", joined ", ");
   ("plantCare", "plantCare", joined ", ")].

(** [item.get(key, fallback)] *)
Definition get (item : Item) (key : string) (fallback : JValue) : JValue :=
  default fallback (item !! key).

(** [repr] of a list of field names. *)
Definition repr_fields (fields : list string) : string :=
  "[" ++ join ", " (map (λ field, "'" ++ field ++ "'") fields) ++ "]".

(** The strings of a list whose elements are all strings. *)
Fixpoint strings_of (elements : list JValue) : option (list string) :=
  match elements with
  | [] => Some []
  | JStr s :: rest => cons s <$> strings_of rest
  | _ :: _ => None
  end.

Section Conversion.

(** [str(v)] for a value that is not a string, the message of the
    [TypeError] that [sep.join] raises on a list with an element that is not
    a string, and the text of [datetime.now().isoformat()] when the document
    of a given position is built. *)
Variable str_of : JValue → string.
Variable join_error : list JValue → string.
Variable isoformat : nat → string.

(** A value inside an f-string. *)
Definition format_value (v : JValue) : string :=
  match v with
  | JStr s => s
  | _ => str_of v
  end.

(** [sep.join(elements)] *)
Definition join_values (sep : string) (elements : list JValue) : result string :=
  match strings_of elements with
  | Some strings => Ok (join sep strings)
  | None => Raise (Exception (join_error elements))
  end.

(** [transform_func(x)]: [sep.join(x) if isinstance(x, list) else x]. *)
Definition transform_func (transform : Transform) (x : JValue) : result JValue :=
  match transform, x with
  | joined sep, JList elements =>
      match join_values sep elements with
      | Ok s => Ok (JStr s)
      | Raise e => Raise e
      end
  | _, _ => Ok x
  end.

(** The two loops over optional fields and over tag fields: a field that
    is present with a true value adds one line. *)
Fixpoint add_fields (fields : list (string * string * Transform)) (item : Item)
    (content_parts : list string) : Out LogRecord (list string) :=
  match fields with
  | [] => mret content_parts
  | (field, label, transform) :: rest =>
      match item !! field with
      | Some v =>
          if truthy v
          then shown ← call (transform_func transform v);
               let line := label ++ ": " ++ format_value shown in
               add_fields rest item (content_parts ++ [line])%list
          else add_fields rest item content_parts
      | None => add_fields rest item content_parts
      end
  end.

(** The part of the loop body that builds [content]. *)
Definition item_content (item : Item) : Out LogRecord string :=
  let content_parts :=
    ["Title: " ++ format_value (get item "title" (JStr "N/A"));
     "Description: " ++ format_value (get item "description" (JStr "N/A"));
     "Price: $" ++ format_value (get item "price" (JStr "N/A"))] in
  let content_parts :=
    match item !! "markedPrice" with
    | Some v =>
        let line := "Marked Price: $" ++ format_value v in
        (content_parts ++ [line])%list
    | None => content_parts
    end in
  let content_parts :=
    match item !! "discountPercentage" with
    | Some v =>
        let line := "Discount: " ++ format_value v ++ "%" in
        (content_parts ++ [line])%list
    | None => content_parts
    end in
  content_parts ← add_fields optional_fields item content_parts;
  content_parts ← add_fields tag_fields item content_parts;
  mret (join nl content_parts).

(** [missing_fields] *)
Definition missing_fields (item : Item) : list string :=
  List.filter (λ field, match item !! field with None => true | Some _ => false end)
              required_fields.

(** The loop of [convert_to_documents] over the items, with the documents
    built so far. *)
Fixpoint convert_items (json_data : list Item) (documents : list IngestedDocument)
    : Out LogRecord (list IngestedDocument) :=
  match json_data with
  | [] => mret documents
  | item :: rest =>
      match missing_fields item with
      | _ :: _ =>
          tell ("WARNING",
                "Missing required fields " ++ repr_fields (missing_fields item)
                ++ " in item: " ++ format_value (get item "title" (JStr "Unknown")));;
          convert_items rest documents
      | [] =>
          content ← item_content item;
          let metadata :=
            [("source", JStr "product_data");
             ("title", get item "title" (JStr "Unknown"));
             ("price", get item "price" (JInt 0));
             ("category", get item "category" (JStr "Unknown"));
             ("ingestion_timestamp", JStr (isoformat (length documents)))] in
          let doc := {| page_content := content; metadata := metadata |} in
          convert_items rest (documents ++ [doc])%list
      end
  end.

(** [JsonIngestor.convert_to_documents]; [IngestionError] is raised as an
    [Exception] with its message. *)
Definition convert_to_documents (json_data : list Item)
    : Out LogRecord (list IngestedDocument) :=
  try_except
    (documents ← convert_items json_data [];
     tell ("INFO",
           "Successfully converted "
           ++ str_of (JInt (Z.of_nat (length documents)))
           ++ " items to documents");;
     mret documents)
    (λ e,
       tell ("ERROR", "Error converting JSON to documents: " ++ str e);;
       raise (Exception ("Document conversion failed: " ++ str e))).

End Conversion.

(** *** Vocabulary of the properties of the conversion *)

(** An item has the three required fields. *)
Definition has_required (item : Item) : bool :=
  forallb (λ field, match item !! field with Some _ => true | None => false end)
          required_fields.

(** The fields that add a line only when their value is true. *)
Definition conditional_fields : list string :=
  (optional_fields.*1.*1 ++ tag_fields.*1.*1)%list.

(** What the loops over those fields see of a field: its value when it is
    present and true. *)
Definition visible (item : Item) (field : string) : option JValue :=
  match item !! field with
  | Some v => if truthy v then Some v else None
  | None => None
  end.

(** A document is the one the loop body builds from an item. *)
Definition built_from (str_of : JValue → string) (join_error : list JValue → string)
    (doc : IngestedDocument) (item : Item) : Prop :=
  (item_content str_of join_error item).2 = Ok (page_content doc)
  ∧ ∃ timestamp,
      metadata doc
      = [("source", JStr "product_data");
         ("title", get item "title" (JStr "Unknown"));
         ("price", get item "price" (JInt 0));
         ("category", get item "category" (JStr "Unknown"));
         ("ingestion_timestamp", JStr timestamp)].

(** The record logged for an item that misses required fields. *)
Definition missing_warning (str_of : JValue → string) (item : Item) : LogRecord :=
  ("WARNING",
   "Missing required fields " ++ repr_fields (missing_fields item)
   ++ " in item: " ++ format_value str_of (get item "title" (JStr "Unknown"))).

(** The three lines every content starts with. *)
Definition header (str_of : JValue → string) (item : Item) : string :=
  "Title: " ++ format_value str_of (get item "title" (JStr "N/A")) ++ nl
  ++ "Description: " ++ format_value str_of (get item "description" (JStr "N/A")) ++ nl
  ++ "Price: $" ++ format_value str_of (get item "price" (JStr "N/A")).

End Ingestor.

(** *** A small catalog *)

Module Catalog.
Import Ingestor.

(** [str] for the numbers of the catalog. *)
Definition example_str (v : JValue) : string :=
  match v with
  | JInt 0 => "0"
  | JInt 1 => "1"
  | JInt 2 => "2"
  | JFloat text _ => text
  | _ => "?"
  end.

Definition example_join_error (elements : list JValue) : string :=
  "sequence item 0: expected str instance, int found".

Definition example_isoformat (position : nat) : string := "2024-11-03T10:00:00".

(** A complete item, with a quantity of 0, a list of sizes and a tag. *)
Definition catalog_rose : Item :=
  list_to_map [("title", JStr "Rose"); ("description", JStr "Red");
               ("price", JFloat "5.5" true); ("quantity", JInt 0);
               ("size", JList [JStr "S"; JStr "M"]); ("tag", JStr "x")].

(** An item without description. *)
Definition catalog_fern : Item :=
  list_to_map [("title", JStr "Fern"); ("price", JInt 2)].

(** An item whose benefits are not strings. *)
Definition catalog_moss : Item :=
  list_to_map [("title", JStr "Moss"); ("description", JStr "Green");
               ("price", JInt 2); ("benefits", JList [JInt 1])].

End Catalog.

(** * Properties *)

(** ** The session store *)

Module SessionFacts.

Lemma foldl_delete_lookup (l : list string) (m : gmap string SessionData) (k : string) :
  foldl (λ ss session_id, delete session_id ss) m l !! k
  = if decide (k ∈ l) then None else m !! k.
Proof.
  revert m. induction l as [|a l IH]; intros m; simpl.
  - destruct (decide (k ∈ [])) as [H|_]; [by apply elem_of_nil in H | done].
  - rewrite IH. destruct (decide (k = a)) as [->|Hne].
    + rewrite lookup_delete_eq, (decide_True (P := a ∈ a :: l)) by set_solver.
      by destruct (decide _).
    + rewrite lookup_delete_ne by done.
      destruct (decide (k ∈ l)) as [H1|H1], (decide (k ∈ a :: l)) as [H2|H2];
        try done.
      * exfalso. apply H2. by right.
      * apply elem_of_cons in H2 as [?|?]; done.
Qed.

Lemma expired_keys (P : SessionData → bool) (m : gmap string SessionData) (k : string) :
  k ∈ (List.filter (λ kv, P kv.2) (map_to_list m)).*1
  ↔ ∃ d, m !! k = Some d ∧ P d = true.
Proof.
  rewrite list_elem_of_fmap. split.
  - intros [[k' d] [Heq Hin]]. simpl in Heq. subst k'.
    apply list_elem_of_In, filter_In in Hin.
    destruct Hin as [Hin HP]. apply list_elem_of_In, elem_of_map_to_list in Hin.
    eauto.
  - intros (d & Hk & HP). exists (k, d). split; [done|].
    apply list_elem_of_In, filter_In. split; [|done].
    by apply list_elem_of_In, elem_of_map_to_list.
Qed.

(** The sweep keeps a session exactly when it is not expired. *)
Lemma clean_lookup (σ : State) (now : Z) (sid : string) :
  store (_clean_expired_sessions now σ).2 !! sid
  = d ← store σ !! sid; if is_expired (timeout σ) now d then None else Some d.
Proof.
  unfold _clean_expired_sessions, store, timeout. simpl.
  rewrite foldl_delete_lookup.
  destruct (sessions (session_manager σ) !! sid) as [d|] eqn:Hd; simpl.
  - destruct (decide _) as [Hin|Hin].
    + apply expired_keys in Hin as (d' & Hd' & HP).
      rewrite Hd in Hd'. injection Hd' as <-. by rewrite HP.
    + destruct (is_expired _ _ d) eqn:HP; [|done].
      exfalso. apply Hin, expired_keys. eauto.
  - case_decide; done.
Qed.

Lemma clean_frame (σ : State) (now : Z) :
  heap (_clean_expired_sessions now σ).2 = heap σ
  ∧ timeout (_clean_expired_sessions now σ).2 = timeout σ.
Proof. done. Qed.

Lemma is_expired_stale (σ : State) (now : Z) (d : SessionData) :
  is_expired (timeout σ) now d = true ↔ stale σ now d.
Proof. unfold is_expired, stale. apply bool_decide_eq_true. Qed.

Lemma clean_lookup_Some (σ : State) (now : Z) (sid : string) (d : SessionData) :
  store (_clean_expired_sessions now σ).2 !! sid = Some d
  ↔ store σ !! sid = Some d ∧ ¬ stale σ now d.
Proof.
  rewrite clean_lookup. destruct (store σ !! sid) as [d'|]; simpl.
  - destruct (is_expired _ _ d') eqn:HP.
    + apply is_expired_stale in HP. split; [done|]. intros [[= ->] ?]. done.
    + split.
      * intros [= ->]. split; [done|]. rewrite <- is_expired_stale. congruence.
      * by intros [? _].
  - split; [done | by intros [? _]].
Qed.

Lemma clean_lookup_None (σ : State) (now : Z) (sid : string) :
  store (_clean_expired_sessions now σ).2 !! sid = None
  ↔ ∀ d, store σ !! sid = Some d → stale σ now d.
Proof.
  rewrite clean_lookup. destruct (store σ !! sid) as [d'|]; simpl.
  - destruct (is_expired _ _ d') eqn:HP.
    + apply is_expired_stale in HP. split; [|done]. by intros _ d [= <-].
    + split; [done|]. intros H. specialize (H d' eq_refl).
      apply is_expired_stale in H. congruence.
  - split; [|done]. by intros _ d.
Qed.

(** [get_session_history], step by step. *)
Lemma get_session_history_unfold (σ : State) (sid : string) (t1 t2 : Z) :
  get_session_history sid t1 t2 σ
  = let swept := store (_clean_expired_sessions t2 σ).2 in
    match swept !! sid with
    | None =>
        (fresh (dom (heap σ)),
         {| heap := <[fresh (dom (heap σ)) := []]> (heap σ);
            session_manager :=
              {| sessions := <[sid := new_session σ t1]> swept;
                 session_timeout := timeout σ |} |})
    | Some d =>
        (history d,
         {| heap := heap σ;
            session_manager :=
              {| sessions := <[sid := refreshed t1 d]> swept;
                 session_timeout := timeout σ |} |})
    end.
Proof.
  unfold get_session_history. simpl.
  unfold mbind, St_bind, _clean_expired_sessions, store. simpl.
  destruct (_ !! sid); reflexivity.
Qed.

Lemma get_session_history_timeout (σ : State) (sid : string) (t1 t2 : Z) :
  timeout (get_session_history sid t1 t2 σ).2 = timeout σ.
Proof.
  rewrite get_session_history_unfold. simpl. by destruct (_ !! sid).
Qed.

(** The store after an access, entry by entry. *)
Lemma get_session_history_lookup (σ : State) (sid k : string) (t1 t2 : Z) :
  store (get_session_history sid t1 t2 σ).2 !! k
  = if decide (k = sid)
    then Some (match store (_clean_expired_sessions t2 σ).2 !! sid with
               | None => new_session σ t1
               | Some d => refreshed t1 d
               end)
    else store (_clean_expired_sessions t2 σ).2 !! k.
Proof.
  rewrite get_session_history_unfold. simpl.
  destruct (store _ !! sid) eqn:Hs; unfold store at 1; simpl;
    (destruct (decide (k = sid)) as [->|Hne];
     [by rewrite lookup_insert_eq | by rewrite lookup_insert_ne]).
Qed.

Lemma get_session_history_heap (σ : State) (sid : string) (t1 t2 : Z) :
  heap (get_session_history sid t1 t2 σ).2
  = match store (_clean_expired_sessions t2 σ).2 !! sid with
    | None => <[fresh (dom (heap σ)) := []]> (heap σ)
    | Some _ => heap σ
    end.
Proof.
  rewrite get_session_history_unfold. simpl. by destruct (_ !! sid).
Qed.

(** The handle returned is the history of the entry the store then holds
    for the session, last accessed at [t1]. *)
Lemma get_session_history_entry (σ : State) (sid : string) (t1 t2 : Z) :
  ∃ d, store (get_session_history sid t1 t2 σ).2 !! sid = Some d
       ∧ history d = (get_session_history sid t1 t2 σ).1
       ∧ last_accessed d = t1.
Proof.
  rewrite get_session_history_lookup, decide_True by done.
  rewrite get_session_history_unfold. simpl.
  destruct (store _ !! sid); eexists; split; eauto.
Qed.

(** Access to a session that is present and not stale: its history
    object is returned, no object is allocated. *)
Lemma get_session_history_live (σ : State) (sid : string) (t1 t2 : Z)
    (d : SessionData) :
  store σ !! sid = Some d → ¬ stale σ t2 d →
  get_session_history sid t1 t2 σ
  = (history d,
     {| heap := heap σ;
        session_manager :=
          {| sessions := <[sid := refreshed t1 d]>
                           (store (_clean_expired_sessions t2 σ).2);
             session_timeout := timeout σ |} |}).
Proof.
  intros Hd Hlive. rewrite get_session_history_unfold. cbv zeta.
  by rewrite (proj2 (clean_lookup_Some σ t2 sid d) (conj Hd Hlive)).
Qed.

(** Access to a session that is absent or stale: a new, empty history
    object is allocated and returned. *)
Lemma get_session_history_absent (σ : State) (sid : string) (t1 t2 : Z) :
  (∀ d, store σ !! sid = Some d → stale σ t2 d) →
  get_session_history sid t1 t2 σ
  = (fresh (dom (heap σ)),
     {| heap := <[fresh (dom (heap σ)) := []]> (heap σ);
        session_manager :=
          {| sessions := <[sid := new_session σ t1]>
                           (store (_clean_expired_sessions t2 σ).2);
             session_timeout := timeout σ |} |}).
Proof.
  intros Hd. rewrite get_session_history_unfold. cbv zeta.
  by rewrite (proj2 (clean_lookup_None σ t2 sid) Hd).
Qed.

Lemma messages_add_messages (h : ref) (ms : list BaseMessage) (σ : State) :
  messages h (add_messages h ms σ).2 = (messages h σ ++ ms)%list.
Proof. unfold messages at 1. simpl. by rewrite lookup_insert_eq. Qed.

(** *** The well-formedness invariant *)

Lemma wf_initial : wf initial_state.
Proof. split; [done | |]; intros *; unfold store; simpl; by rewrite lookup_empty. Qed.

Lemma wf_get_session_history (σ : State) (sid : string) (t1 t2 : Z) :
  wf σ → wf (get_session_history sid t1 t2 σ).2.
Proof.
  intros [Ht Ha Hs].
  assert (Hfresh : ∀ k d, store σ !! k = Some d →
                          history d ≠ fresh (dom (heap σ))).
  { intros k d Hk Heq. apply Ha in Hk. rewrite Heq in Hk.
    by apply is_fresh in Hk. }
  split.
  - by rewrite get_session_history_timeout.
  - intros k d. rewrite get_session_history_lookup, get_session_history_heap.
    destruct (decide (k = sid)) as [->|Hne].
    + destruct (store _ !! sid) as [d'|] eqn:Hd'; intros [= <-]; simpl.
      * apply clean_lookup_Some in Hd' as [Hd' _]. eauto.
      * set_solver.
    + intros Hk. apply clean_lookup_Some in Hk as [Hk _]. apply Ha in Hk.
      destruct (store _ !! sid); [done | set_solver].
  - intros k1 k2 d1 d2. rewrite !get_session_history_lookup.
    destruct (store (_clean_expired_sessions t2 σ).2 !! sid) as [d|] eqn:Hd.
    + apply clean_lookup_Some in Hd as [Hd _].
      destruct (decide (k1 = sid)) as [->|Hn1], (decide (k2 = sid)) as [->|Hn2];
        try done.
      * intros [= <-] H2 Heq. apply clean_lookup_Some in H2 as [H2 _].
        symmetry. eapply Hs; [exact H2 | exact Hd | by rewrite <- Heq].
      * intros H1 [= <-] Heq. apply clean_lookup_Some in H1 as [H1 _].
        eapply Hs; [exact H1 | exact Hd | by rewrite Heq].
      * intros H1 H2. apply clean_lookup_Some in H1 as [H1 _].
        apply clean_lookup_Some in H2 as [H2 _]. eauto.
    + destruct (decide (k1 = sid)) as [->|Hn1], (decide (k2 = sid)) as [->|Hn2];
        try done.
      * intros [= <-] H2 Heq. apply clean_lookup_Some in H2 as [H2 _].
        exfalso. eapply Hfresh; [exact H2 | by rewrite <- Heq].
      * intros H1 [= <-] Heq. apply clean_lookup_Some in H1 as [H1 _].
        exfalso. eapply Hfresh; [exact H1 | by rewrite Heq].
      * intros H1 H2. apply clean_lookup_Some in H1 as [H1 _].
        apply clean_lookup_Some in H2 as [H2 _]. eauto.
Qed.

Lemma wf_add_messages (σ : State) (h : ref) (ms : list BaseMessage) :
  wf σ → wf (add_messages h ms σ).2.
Proof.
  intros [Ht Ha Hs]. split; [done | | done].
  intros k d Hk. apply Ha in Hk. simpl. set_solver.
Qed.

Lemma wf_get_session_info (σ : State) (sid : string) :
  wf σ → wf (get_session_info sid σ).2.
Proof.
  unfold get_session_info, mbind, St_bind. simpl.
  by destruct (_ !! sid).
Qed.

End SessionFacts.
Import SessionFacts.

(** Two states the store reaches from the initial one, used to instantiate
    the theorems below: session ["a"] was accessed at time 0; then session
    ["b"] was accessed half an hour later. *)
Lemma wf_example_a : wf (get_session_history "a" 0 0 initial_state).2.
Proof. apply wf_get_session_history, wf_initial. Qed.

Lemma wf_example_ab :
  wf (get_session_history "b" (hours 1 / 2) (hours 1 / 2)
        (get_session_history "a" 0 0 initial_state).2).2.
Proof. apply wf_get_session_history, wf_example_a. Qed.

(** C2. Session identity: two sequential calls of [get_session_history] for
    the same session id, the second one sweeping within the timeout of the
    first, return the same history object; the turns appended through the
    first handle in between are there when read through the second. *)
Theorem session_identity (σ : State) (s : string) (t1 t1' t2 t2' : Z)
    (turns : list BaseMessage) :
  let first := get_session_history s t1 t1' σ in
  let appended := (add_messages first.1 turns first.2).2 in
  let second := get_session_history s t2 t2' appended in
  t2' - t1 ≤ timeout σ →
  second.1 = first.1
  ∧ messages second.1 second.2 = (messages first.1 first.2 ++ turns)%list.
Proof.
  intros first appended second Hwin.
  destruct (get_session_history_entry σ s t1 t1') as (d & Hd & Hh & Hla).
  fold first in Hd, Hh.
  assert (Hkeep : store (_clean_expired_sessions t2' appended).2 !! s = Some d).
  { apply clean_lookup_Some. split; [exact Hd|].
    unfold stale. change (timeout appended) with (timeout first.2).
    subst first. rewrite get_session_history_timeout. lia. }
  subst second. rewrite get_session_history_unfold. cbv zeta. rewrite Hkeep.
  simpl. split; [done|].
  unfold messages at 1. simpl. rewrite Hh, lookup_insert_eq. done.
Qed.

Lemma session_identity_witness :
  let first := get_session_history "a" 0 0 initial_state in
  let appended := (add_messages first.1 [HumanMessage "hi"] first.2).2 in
  let second := get_session_history "a" (hours 1) (hours 1) appended in
  second.1 = first.1 ∧ messages second.1 second.2 = [HumanMessage "hi"].
Proof.
  apply (session_identity initial_state "a" 0 0 (hours 1) (hours 1)
           [HumanMessage "hi"]).
  vm_compute. discriminate.
Defined.

(** C3. Expiry: an access sweeps with the clock reading [now] and removes
    exactly the stale sessions. A session last accessed more than one hour
    before [now] is gone after the sweep, and after the access its id is
    either unmapped or, when it is the id accessed, mapped to a newly
    created session with another history object; a session last accessed at
    most one hour before [now] survives with its history and creation time,
    its last access refreshed only when it is the one accessed. *)
Theorem expiry_sweep_exact (σ : State) (accessed sid : string)
    (current_time now : Z) (d : SessionData) :
  wf σ →
  store σ !! sid = Some d →
  let swept := (_clean_expired_sessions now σ).2 in
  let after := (get_session_history accessed current_time now σ).2 in
  (hours 1 < now - last_accessed d →
     store swept !! sid = None
     ∧ (sid ≠ accessed → store after !! sid = None)
     ∧ (sid = accessed →
        store after !! sid = Some (new_session σ current_time)
        ∧ history (new_session σ current_time) ≠ history d))
  ∧ (now - last_accessed d ≤ hours 1 →
     store swept !! sid = Some d
     ∧ store after !! sid = Some (accessed_entry accessed sid current_time d)).
Proof.
  intros Hwf Hd swept after. split.
  - intros Hstale.
    assert (Hgone : store swept !! sid = None).
    { apply clean_lookup_None. intros d' Hd'. rewrite Hd in Hd'.
      injection Hd' as <-. unfold stale. rewrite (wf_timeout _ Hwf). done. }
    split; [exact Hgone|]. subst after. rewrite get_session_history_lookup.
    split.
    + intros Hne. by rewrite decide_False.
    + intros ->. rewrite decide_True by done. fold swept. rewrite Hgone.
      split; [done|]. simpl. intros Heq.
      apply (wf_allocated _ Hwf) in Hd. rewrite <- Heq in Hd.
      by apply is_fresh in Hd.
  - intros Hlive.
    assert (Hkept : store swept !! sid = Some d).
    { apply clean_lookup_Some. split; [exact Hd|].
      unfold stale. rewrite (wf_timeout _ Hwf). lia. }
    split; [exact Hkept|]. subst after. rewrite get_session_history_lookup.
    unfold accessed_entry. destruct (decide (sid = accessed)) as [->|Hne].
    + fold swept. by rewrite Hkept.
    + exact Hkept.
Qed.

Lemma expiry_sweep_exact_witness :
  let σ := (get_session_history "b" (hours 1 / 2) (hours 1 / 2)
              (get_session_history "a" 0 0 initial_state).2).2 in
  let after := (get_session_history "c" (hours 1 + 1) (hours 1 + 1) σ).2 in
  store after !! "a" = None
  ∧ store after !! "b"
    = Some {| history := 2%positive; created_at := hours 1 / 2;
              last_accessed := hours 1 / 2 |}.
Proof.
  set (a := {| history := 1%positive; created_at := 0; last_accessed := 0 |}).
  set (b := {| history := 2%positive; created_at := hours 1 / 2;
               last_accessed := hours 1 / 2 |}).
  split.
  - apply (expiry_sweep_exact _ "c" "a" (hours 1 + 1) (hours 1 + 1) a
             wf_example_ab); [reflexivity | vm_compute; reflexivity | discriminate].
  - apply (expiry_sweep_exact _ "c" "b" (hours 1 + 1) (hours 1 + 1) b
             wf_example_ab); [reflexivity | vm_compute; discriminate].
Defined.

(** C9. [get_session_info] reports the creation time, the last access and
    the number of turns of a session that is present, and [None] otherwise;
    it leaves the whole state as it is: no last access is updated, no
    session is swept, and no history changes. *)
Theorem get_session_info_read_only (σ : State) (sid : string) :
  (get_session_info sid σ).2 = σ
  ∧ (get_session_info sid σ).1
    = (d ← store σ !! sid;
       Some {| info_created_at := created_at d;
               info_last_accessed := last_accessed d;
               message_count := length (messages (history d) σ) |}).
Proof.
  unfold get_session_info, store, mbind, St_bind, get_self, gets. simpl.
  destruct (sessions (session_manager σ) !! sid); done.
Qed.

(** C10. After a call of [get_session_history] whose two clock readings are
    [current_time] and then [sweep_time], every session in the store was
    last accessed at most one hour before [current_time], and every session
    other than the one accessed at most one hour before [sweep_time]. The
    handle returned is never the history of a session that was stale at the
    sweep. When the session accessed was itself stale, the sweep deletes its
    entry, and the call returns a new, empty history object and stores it
    with [created_at] and [last_accessed] set to [current_time]. A session
    stale at [current_time] is stale at [sweep_time], the later reading. *)
Theorem no_expired_session_after_access (σ : State) (sid : string)
    (current_time sweep_time : Z) :
  wf σ →
  current_time ≤ sweep_time →
  let r := get_session_history sid current_time sweep_time σ in
  (∀ k d, store r.2 !! k = Some d → current_time - last_accessed d ≤ hours 1)
  ∧ (∀ k d, store r.2 !! k = Some d → k ≠ sid →
            sweep_time - last_accessed d ≤ hours 1)
  ∧ (∀ k d, store σ !! k = Some d → hours 1 < sweep_time - last_accessed d →
            r.1 ≠ history d)
  ∧ (∀ d, store σ !! sid = Some d → hours 1 < sweep_time - last_accessed d →
          store (_clean_expired_sessions sweep_time σ).2 !! sid = None
          ∧ heap σ !! r.1 = None
          ∧ messages r.1 r.2 = []
          ∧ store r.2 !! sid
            = Some {| history := r.1; created_at := current_time;
                      last_accessed := current_time |}).
Proof.
  intros Hwf Hclock r.
  pose proof (wf_timeout _ Hwf) as Ht.
  assert (Hlive : ∀ k d, store (_clean_expired_sessions sweep_time σ).2 !! k = Some d →
                         store σ !! k = Some d ∧ sweep_time - last_accessed d ≤ hours 1).
  { intros k d Hk. apply clean_lookup_Some in Hk as [Hk Hns].
    split; [done|]. unfold stale in Hns. lia. }
  assert (Hpos : 0 ≤ hours 1) by (unfold hours; lia).
  split; [|split; [|split]].
  - intros k d. subst r. rewrite get_session_history_lookup.
    destruct (decide (k = sid)) as [->|Hne].
    + destruct (store _ !! sid); intros [= <-]; simpl; lia.
    + intros Hk. apply Hlive in Hk as [_ Hk]. lia.
  - intros k d Hk Hne. subst r. rewrite get_session_history_lookup in Hk.
    rewrite decide_False in Hk by done. by apply Hlive in Hk as [_ Hk].
  - intros k d Hk Hstale. subst r. rewrite get_session_history_unfold. cbv zeta.
    destruct (store _ !! sid) as [da|] eqn:Hda; simpl.
    + apply Hlive in Hda as [Hda Hfresh]. intros Heq.
      assert (Hsame : sid = k) by (eapply (wf_separate _ Hwf); eauto).
      subst k. rewrite Hda in Hk. injection Hk as <-. lia.
    + intros Heq. apply (wf_allocated _ Hwf) in Hk. rewrite <- Heq in Hk.
      by apply is_fresh in Hk.
  - intros d Hd Hstale.
    assert (Hgone : store (_clean_expired_sessions sweep_time σ).2 !! sid = None).
    { apply clean_lookup_None. intros d' Hd'. rewrite Hd in Hd'.
      injection Hd' as <-. unfold stale. lia. }
    split; [exact Hgone|]. subst r.
    rewrite get_session_history_lookup, decide_True by done.
    rewrite get_session_history_unfold. cbv zeta. rewrite Hgone. simpl.
    split; [apply not_elem_of_dom, is_fresh|]. split; [|done].
    unfold messages. simpl. by rewrite lookup_insert_eq.
Qed.

Lemma no_expired_session_after_access_witness :
  let σ := (get_session_history "a" 0 0 initial_state).2 in
  let r := get_session_history "a" (hours 2) (hours 2 + 1) σ in
  r.1 ≠ 1%positive
  ∧ messages r.1 r.2 = []
  ∧ store r.2 !! "a"
    = Some {| history := r.1; created_at := hours 2; last_accessed := hours 2 |}.
Proof.
  set (a := {| history := 1%positive; created_at := 0; last_accessed := 0 |}).
  assert (Hclock : hours 2 ≤ hours 2 + 1) by lia.
  pose proof (no_expired_session_after_access _ "a" (hours 2) (hours 2 + 1)
                wf_example_a Hclock) as (_ & _ & Hhandle & Hfresh).
  split.
  - apply (Hhandle "a" a); [reflexivity | vm_compute; reflexivity].
  - apply (Hfresh a); [reflexivity | vm_compute; reflexivity].
Defined.

(** ** The context formatter *)

Module FormatterFacts.

Lemma append_nil_l (s : string) : "" ++ s = s.
Proof. reflexivity. Qed.

Lemma append_cons (a : ascii) (s1 s2 : string) :
  String a s1 ++ s2 = String a (s1 ++ s2).
Proof. reflexivity. Qed.

Lemma append_assoc (s1 s2 s3 : string) : (s1 ++ s2) ++ s3 = s1 ++ s2 ++ s3.
Proof.
  induction s1 as [|a s1 IH]; [done|]. rewrite !append_cons. by f_equal.
Qed.

Lemma contains_app (c : ascii) (s1 s2 : string) :
  contains c (s1 ++ s2) = contains c s1 || contains c s2.
Proof.
  induction s1 as [|a s1 IH]; [done|].
  rewrite append_cons. simpl. by rewrite IH, orb_assoc.
Qed.

Lemma contains_join (c : ascii) (sep : string) (l : list string) :
  contains c sep = false →
  Forall (λ s, contains c s = false) l →
  contains c (join sep l) = false.
Proof.
  intros Hsep Hl. unfold join. induction Hl as [|s l Hs Hl IH]; simpl; [done|].
  destruct l as [|s' l']; [done|].
  by rewrite !contains_app, Hs, Hsep, IH.
Qed.

Lemma contains_re_sub_delete (cls : ascii → bool) (c : ascii) (s : string) :
  cls c = true → contains c (re_sub_delete cls s) = false.
Proof.
  intros Hc. induction s as [|a s IH]; simpl; [done|].
  destruct (cls a) eqn:Ha; simpl; [done|].
  rewrite IH, orb_false_r. apply Ascii.eqb_neq. congruence.
Qed.

(** The list the loop builds. *)
Lemma texts_flat_map (acc : list string) (documents : list Document) :
  foldl (λ texts doc, texts ++ [clean doc] ++ ["---"])%list acc documents
  = (acc ++ flat_map (λ doc, [clean doc; "---"]) documents)%list.
Proof.
  revert acc. induction documents as [|doc documents IH]; intros acc; simpl.
  - by rewrite app_nil_r.
  - rewrite IH. by rewrite <- app_assoc.
Qed.

Lemma format_documents_texts (documents : list Document) :
  format_documents documents
  = join nl (flat_map (λ doc, [clean doc; "---"]) documents).
Proof. unfold format_documents. by rewrite texts_flat_map. Qed.

Lemma format_documents_blocks (documents : list Document) :
  format_documents documents = join nl (map block documents).
Proof.
  rewrite format_documents_texts. unfold join, block.
  induction documents as [|doc documents IH]; [done|].
  destruct documents as [|doc' documents]; [done|].
  change (String.concat nl (map _ (doc :: doc' :: documents)))
    with ((clean doc ++ nl ++ "---") ++ nl
          ++ String.concat nl (map (λ d, clean d ++ nl ++ "---") (doc' :: documents))).
  rewrite <- IH. simpl. by rewrite !append_assoc.
Qed.

Lemma format_documents_cons (doc doc' : Document) (documents : list Document) :
  format_documents (doc :: doc' :: documents)
  = block doc ++ nl ++ format_documents (doc' :: documents).
Proof. by rewrite !format_documents_blocks. Qed.

(** *** Reading the context back *)

Lemma split_lines_nonempty (s : string) : split_lines s ≠ [].
Proof.
  induction s as [|c s IH]; simpl; [done|].
  destruct (Ascii.eqb c "010"); [done|]. by destruct (split_lines s).
Qed.

Lemma split_lines_app (s1 s2 : string) :
  split_lines (s1 ++ nl ++ s2) = (split_lines s1 ++ split_lines s2)%list.
Proof.
  induction s1 as [|c s1 IH]; simpl; [done|].
  rewrite IH. destruct (Ascii.eqb c "010"); [done|].
  pose proof (split_lines_nonempty s1) as Hne.
  by destruct (split_lines s1).
Qed.

Lemma join_split_lines (s : string) : join nl (split_lines s) = s.
Proof.
  unfold join. induction s as [|c s IH]; simpl; [done|].
  destruct (Ascii.eqb c "010") eqn:Hc.
  - apply Ascii.eqb_eq in Hc as ->.
    pose proof (split_lines_nonempty s) as Hne.
    destruct (split_lines s) as [|l ls]; [done|].
    change (String.concat nl ("" :: l :: ls)) with (nl ++ String.concat nl (l :: ls)).
    by rewrite IH.
  - pose proof (split_lines_nonempty s) as Hne.
    destruct (split_lines s) as [|l ls]; [done|].
    rewrite <- IH. by destruct ls.
Qed.

Lemma passages_of_lines_passage (cur ls rest : list string) :
  existsb (String.eqb "---") ls = false →
  passages_of_lines cur (ls ++ "---" :: rest)
  = (rev cur ++ ls)%list :: passages_of_lines [] rest.
Proof.
  revert cur. induction ls as [|l ls IH]; intros cur Hls; simpl.
  - by rewrite app_nil_r.
  - simpl in Hls. apply orb_false_iff in Hls as [Hl Hls].
    rewrite Hl, IH by done. simpl. by rewrite <- app_assoc.
Qed.

Lemma split_lines_format (doc : Document) (documents : list Document) :
  split_lines (format_documents (doc :: documents))
  = flat_map (λ d, split_lines (clean d) ++ ["---"])%list (doc :: documents).
Proof.
  revert doc. induction documents as [|doc' documents IH]; intros doc.
  - rewrite format_documents_blocks. simpl. unfold block.
    by rewrite split_lines_app, app_nil_r.
  - rewrite format_documents_cons, split_lines_app, IH. unfold block.
    by rewrite split_lines_app.
Qed.

Lemma parse_format (documents : list Document) :
  Forall (λ doc, has_delimiter_line (clean doc) = false) documents →
  parse_context (format_documents documents) = map clean documents.
Proof.
  intros Hall. unfold parse_context.
  destruct documents as [|doc documents]; [done|].
  rewrite split_lines_format.
  induction Hall as [|d ds Hd Hds IH]; [done|].
  change (flat_map ?f (d :: ds)) with (f d ++ flat_map f ds)%list.
  cbv beta. rewrite <- app_assoc. simpl app.
  rewrite passages_of_lines_passage by exact Hd.
  simpl. by rewrite join_split_lines, IH.
Qed.

End FormatterFacts.
Import FormatterFacts.

(** C5, the claim as stated, fails on the delimiter: a passage whose text has
    a line [---] of its own formats to the same context as two passages,
    so the context does not determine where the passages end. *)
Lemma format_documents_delimiter_ambiguous :
  let one := [mkDocument ("a" ++ nl ++ "---" ++ nl ++ "b") []] in
  let two := [mkDocument "a" []; mkDocument "b" []] in
  format_documents one = format_documents two
  ∧ map clean one ≠ map clean two.
Proof. split; [reflexivity | discriminate]. Qed.

(** C5, amended. [format_documents] returns the empty string on no passage;
    its result contains none of the four characters of the class
    [template_delimiter] (the curly braces and the square brackets),
    whatever the passages contain; it is the cleaned texts of the passages
    in their order, each followed by the fixed delimiter line [---], joined
    by newlines; and the passages can be read back from it whenever no
    cleaned text has a line equal to the delimiter. *)
Theorem format_documents_contract (documents : list Document) :
  format_documents [] = ""
  ∧ (∀ c, c ∈ ["{"; "}"; "["; "]"]%char →
          contains c (format_documents documents) = false)
  ∧ format_documents documents = join nl (map block documents)
  ∧ (Forall (λ doc, has_delimiter_line (clean doc) = false) documents →
     parse_context (format_documents documents) = map clean documents).
Proof.
  split; [reflexivity|]. split; [|split].
  - intros c Hc.
    assert (Hcls : template_delimiter c = true).
    { repeat (apply elem_of_cons in Hc as [->|Hc]; [reflexivity|]).
      by apply elem_of_nil in Hc. }
    assert (Hsep : contains c nl = false ∧ contains c "---" = false).
    { repeat (apply elem_of_cons in Hc as [->|Hc]; [by split|]).
      by apply elem_of_nil in Hc. }
    destruct Hsep as [Hnl Hdelim].
    rewrite format_documents_texts. apply contains_join; [exact Hnl|].
    induction documents as [|doc documents IH]; simpl; [constructor|].
    constructor; [by apply contains_re_sub_delete|].
    constructor; [exact Hdelim | exact IH].
  - apply format_documents_blocks.
  - apply parse_format.
Qed.

Lemma format_documents_contract_witness :
  let documents := [mkDocument "  Price: {$5}  " []; mkDocument "[fern]" []] in
  parse_context (format_documents documents) = ["Price: $5"; "fern"].
Proof.
  apply (format_documents_contract
           [mkDocument "  Price: {$5}  " []; mkDocument "[fern]" []]).
  repeat constructor.
Defined.

(** ** The pipeline *)

Module PipelineFacts.

(** *** The output monad *)

Lemma Out_bind_unfold {O A B : Type} (m : Out O A) (k : A → Out O B) :
  m ≫= k
  = match m.2 with
    | Ok a => ((m.1 ++ (k a).1)%list, (k a).2)
    | Raise e => (m.1, Raise e)
    end.
Proof.
  destruct m as [out [a|e]]; unfold mbind, Out_bind; simpl; [|done].
  by destruct (k a).
Qed.

Lemma Out_bind_events {O A B : Type} (m : Out O A) (k : A → Out O B) :
  (m ≫= k).1
  = (m.1 ++ match m.2 with Ok a => (k a).1 | Raise _ => [] end)%list.
Proof.
  rewrite Out_bind_unfold. destruct m.2; simpl; [done|].
  symmetry. apply app_nil_r.
Qed.

Lemma Out_bind_result {O A B : Type} (m : Out O A) (k : A → Out O B) :
  (m ≫= k).2 = match m.2 with Ok a => (k a).2 | Raise e => Raise e end.
Proof. rewrite Out_bind_unfold. by destruct m.2. Qed.

Ltac out_simpl :=
  repeat (progress (rewrite ?Out_bind_result, ?Out_bind_events;
                    cbn [fst snd tell call raise mret Out_ret app])).

#[local] Arguments invoke : simpl never.
#[local] Arguments astream : simpl never.
#[local] Arguments format_documents : simpl never.
#[local] Arguments prompt : simpl never.

Lemma filter_skip {A : Type} (f : A → bool) (x : A) (l : list A) :
  f x = false → List.filter f (x :: l) = List.filter f l.
Proof. intros H. simpl. by rewrite H. Qed.

Lemma filter_keep {A : Type} (f : A → bool) (x : A) (l : list A) :
  f x = true → List.filter f (x :: l) = x :: List.filter f l.
Proof. intros H. simpl. by rewrite H. Qed.

Ltac filter_simpl :=
  repeat (first [ rewrite filter_skip by reflexivity
                | rewrite filter_keep by reflexivity
                | rewrite List.filter_app ]).

(** *** What the loop sees of a retrieval *)

Lemma invoke_unfold (retriever : Retriever) (run_name query : string) :
  invoke retriever run_name query
  = (tell (mkStreamEvent "on_retriever_start" run_name no_data);;
     documents ← _get_relevant_documents retriever query;
     tell (retriever_end run_name documents);;
     mret documents).
Proof. reflexivity. Qed.

Lemma _get_relevant_documents_compression (base_compressor : Compressor)
    (base_retriever : Retriever) (query : string) :
  _get_relevant_documents
    (ContextualCompressionRetriever base_compressor base_retriever) query
  = (docs ← invoke base_retriever (default_name base_retriever) query;
     match docs with
     | [] => mret []
     | _ :: _ => call (compress_documents base_compressor docs query)
     end).
Proof. reflexivity. Qed.

Lemma invoke_result (retriever : Retriever) (run_name query : string) :
  (invoke retriever run_name query).2
  = (_get_relevant_documents retriever query).2.
Proof.
  rewrite invoke_unfold, !Out_bind_result. simpl.
  by destruct (_get_relevant_documents retriever query).2.
Qed.

Lemma invoke_events (retriever : Retriever) (run_name query : string) :
  (invoke retriever run_name query).1
  = (mkStreamEvent "on_retriever_start" run_name no_data
     :: (_get_relevant_documents retriever query).1
     ++ match (invoke retriever run_name query).2 with
        | Ok documents => [retriever_end run_name documents]
        | Raise _ => []
        end)%list.
Proof.
  rewrite invoke_result, invoke_unfold, !Out_bind_events. simpl.
  by destruct (_get_relevant_documents retriever query).2.
Qed.

Lemma delivered_retriever_start (run_name : string) (evs : list StreamEvent) :
  List.filter delivered
    (mkStreamEvent "on_retriever_start" run_name no_data :: evs)
  = List.filter delivered evs.
Proof. reflexivity. Qed.

Lemma delivered_retriever_end (run_name : string) (r : result (list Document)) :
  List.filter delivered
    match r with
    | Ok documents => [retriever_end run_name documents]
    | Raise _ => []
    end
  = if bool_decide (run_name ∈ ["context_retriever"; "chain_answer"])
    then match r with
         | Ok documents => [retriever_end run_name documents]
         | Raise _ => []
         end
    else [].
Proof.
  destruct r; simpl; [|by destruct (bool_decide _)].
  unfold delivered. simpl. by destruct (bool_decide _).
Qed.

(** No event of a retriever run under an unlisted name is delivered. *)
Lemma invoke_unlisted (retriever : Retriever) (run_name query : string) :
  bool_decide (run_name ∈ ["context_retriever"; "chain_answer"]) = false →
  List.filter delivered (invoke retriever run_name query).1 = [].
Proof.
  revert run_name.
  induction retriever as [vs st k | c base IH]; intros run_name Hname;
    rewrite invoke_events, delivered_retriever_start, List.filter_app,
      delivered_retriever_end, Hname, app_nil_r.
  - done.
  - rewrite _get_relevant_documents_compression.
    rewrite Out_bind_events, List.filter_app, IH by (by destruct base).
    by destruct (invoke base _ query).2 as [[|??]|].
Qed.

(** Of the run named [context_retriever], only the end event is delivered,
    with the documents returned. *)
Lemma invoke_delivered (retriever : Retriever) (query : string) :
  List.filter delivered (invoke retriever "context_retriever" query).1
  = match (invoke retriever "context_retriever" query).2 with
    | Ok documents => [retriever_end "context_retriever" documents]
    | Raise _ => []
    end.
Proof.
  rewrite invoke_events, delivered_retriever_start, List.filter_app,
    delivered_retriever_end.
  assert (Hinner : List.filter delivered
                     (_get_relevant_documents retriever query).1 = []).
  { destruct retriever as [vs st k | c base]; [done|].
    rewrite _get_relevant_documents_compression.
    rewrite Out_bind_events, List.filter_app, invoke_unlisted
      by (by destruct base).
    by destruct (invoke base _ query).2 as [[|??]|]. }
  by rewrite Hinner.
Qed.

(** *** What the loop sees of a generation *)

Lemma chunk_events_delivered (llm : BaseLanguageModel) (chunks : list string) :
  List.filter delivered
    (concat (map (chunk_events llm ["RunnableSequence"; "chain_answer"]) chunks))
  = map (chain_stream "chain_answer") chunks.
Proof.
  induction chunks as [|c chunks IH]; [done|].
  simpl. by rewrite IH.
Qed.

Lemma astream_result (llm : BaseLanguageModel) (parents : list string)
    (messages : list BaseMessage) :
  (astream llm parents messages).2
  = match (stream llm messages).2 with
    | Some e => Raise e
    | None => Ok (stream llm messages).1
    end.
Proof.
  unfold astream. by destruct (stream llm messages) as [chunks [e|]]; out_simpl.
Qed.

Lemma astream_delivered (llm : BaseLanguageModel) (messages : list BaseMessage) :
  List.filter delivered
    (astream llm ["RunnableSequence"; "chain_answer"] messages).1
  = map (chain_stream "chain_answer") (stream llm messages).1.
Proof.
  unfold astream. destruct (stream llm messages) as [chunks [e|]]; out_simpl;
    filter_simpl; rewrite chunk_events_delivered; filter_simpl;
    by rewrite app_nil_r.
Qed.

(** *** The inner chain *)

Lemma chain_result (llm : BaseLanguageModel) (retriever : Retriever)
    (question : string) (chat_history : list BaseMessage) (parents : list string) :
  (chain llm retriever question chat_history parents).2
  = match (invoke retriever "context_retriever" question).2 with
    | Raise e => Raise e
    | Ok documents =>
        let generation :=
          stream llm (prompt (format_documents documents) chat_history question) in
        match generation.2 with
        | Some e => Raise e
        | None => Ok generation.1
        end
    end.
Proof.
  unfold chain. out_simpl.
  destruct (invoke retriever "context_retriever" question).2 as [docs|e]; [|done].
  out_simpl. rewrite astream_result.
  destruct (stream llm _).2; [done|]. by out_simpl.
Qed.

Lemma chain_delivered (llm : BaseLanguageModel) (retriever : Retriever)
    (question : string) (chat_history : list BaseMessage) :
  List.filter delivered
    (chain llm retriever question chat_history ["chain_answer"]).1
  = match (invoke retriever "context_retriever" question).2 with
    | Raise e => []
    | Ok documents =>
        retriever_end "context_retriever" documents
        :: map (chain_stream "chain_answer")
             (stream llm (prompt (format_documents documents)
                            chat_history question)).1
    end.
Proof.
  unfold chain. out_simpl. filter_simpl. rewrite invoke_delivered.
  destruct (invoke retriever "context_retriever" question).2 as [docs|e];
    [|done].
  out_simpl. filter_simpl. rewrite astream_delivered, astream_result.
  destruct (stream llm _).2; out_simpl; by rewrite app_nil_r.
Qed.

(** *** The chain with message history *)

Lemma run_create_chain (llm : BaseLanguageModel) (retriever : Retriever)
    (question session_id : string) (clock : Z * Z) (σ : State) :
  let session := resolved session_id clock σ in
  let inner :=
    chain llm retriever question (messages session.1 session.2) ["chain_answer"] in
  let preamble :=
    [mkStreamEvent "on_chain_start" "chain_answer" no_data;
     mkStreamEvent "on_chain_start" "load_history" no_data;
     mkStreamEvent "on_chain_end" "load_history" no_data] in
  run (create_chain llm retriever) question session_id clock σ
  = match inner.2 with
    | Ok chunks =>
        let full_answer := String.concat "" chunks in
        (((preamble ++ inner.1
           ++ [mkStreamEvent "on_chain_end" "chain_answer"
                 (output_data (PyMessageChunk full_answer))])%list, Ok tt),
         (add_messages session.1
            [HumanMessage question; AIMessage full_answer] session.2).2)
    | Raise e => (((preamble ++ inner.1)%list, Raise e), session.2)
    end.
Proof.
  unfold resolved, create_chain, RunnableWithMessageHistory. simpl.
  unfold mbind, Run_bind, lift_St, lift_Out, emit, gets. simpl.
  destruct (get_session_history session_id clock.1 clock.2 σ) as [h σ0]. simpl.
  destruct (chain llm retriever question (messages h σ0) ["chain_answer"])
    as [evs [chunks|e]]; done.
Qed.

Lemma feed_end_create_chain (llm : BaseLanguageModel) (retriever : Retriever)
    (question session_id : string) (clock : Z * Z) (σ : State) :
  let session := resolved session_id clock σ in
  feed_end (create_chain llm retriever) question session_id clock σ
  = match (chain llm retriever question (messages session.1 session.2)
             ["chain_answer"]).2 with
    | Ok _ => Ok tt
    | Raise e => Raise e
    end.
Proof.
  unfold feed_end. rewrite run_create_chain. simpl.
  by destruct (chain _ _ _ _ _).2.
Qed.

(** *** The loop of [ask_question] *)

Lemma loop_body_irrelevant (ev : StreamEvent) :
  relevant ev = false → loop_body ev = ([], Ok tt).
Proof.
  unfold relevant, loop_body. intros [H1 H2]%orb_false_iff.
  by rewrite H1, H2.
Qed.

Lemma async_for_relevant (events : list StreamEvent) (e : result unit) :
  async_for events e loop_body
  = async_for (List.filter relevant events) e loop_body.
Proof.
  induction events as [|ev events IH]; [done|].
  cbn [List.filter async_for]. destruct (relevant ev) eqn:Hev.
  - cbn [async_for]. by rewrite IH.
  - rewrite loop_body_irrelevant, IH by done. clear IH.
    unfold mbind, Out_bind. by destruct (async_for _ _ _).
Qed.

Lemma filter_filter_delivered (events : list StreamEvent) :
  List.filter relevant
    (List.filter (λ ev, bool_decide (name ev ∈ ["context_retriever"; "chain_answer"]))
       events)
  = List.filter delivered events.
Proof.
  induction events as [|ev events IH]; [done|]. simpl. unfold delivered at 1.
  destruct (bool_decide _); simpl.
  - rewrite IH, andb_true_r. done.
  - by rewrite IH, andb_false_r.
Qed.

(** The loop on the events a generation delivers. *)
Lemma async_for_chunks (chunks : list string) (e : result unit) :
  async_for (map (chain_stream "chain_answer") chunks) e loop_body
  = (map PyStr chunks, e).
Proof.
  induction chunks as [|c chunks IH]; [done|]. simpl. rewrite IH. done.
Qed.

(** [ask_question], in terms of the delivered events of the raw feed. *)
Lemma ask_question_delivered (chain : Runnable) (question session_id : string)
    (clock : Z * Z) (σ : State) :
  let feed := run chain question session_id clock σ in
  ask_question chain question session_id clock σ
  = (try_except
       (async_for (List.filter delivered feed.1.1) feed.1.2 loop_body)
       (λ e, tell (error_chunk e)),
     feed.2).
Proof.
  unfold ask_question, astream_events. simpl.
  destruct (run chain question session_id clock σ) as [[events r] σ']. simpl.
  by rewrite async_for_relevant, filter_filter_delivered.
Qed.

(** *** [ask_question] on the chain of [create_chain], case by case *)

Lemma ask_question_create_chain (llm : BaseLanguageModel) (retriever : Retriever)
    (question session_id : string) (clock : Z * Z) (σ : State) :
  let session := resolved session_id clock σ in
  let chat_history := messages session.1 session.2 in
  ask_question (create_chain llm retriever) question session_id clock σ
  = match (invoke retriever "context_retriever" question).2 with
    | Raise e =>
        (try_except ([], Raise e) (λ e, tell (error_chunk e)), session.2)
    | Ok documents =>
        let generation :=
          stream llm (prompt (format_documents documents) chat_history question) in
        match generation.2 with
        | Some e =>
            (try_except (PyDocs documents :: map PyStr generation.1, Raise e)
               (λ e, tell (error_chunk e)),
             session.2)
        | None =>
            ((PyDocs documents :: map PyStr generation.1, Ok tt),
             (add_messages session.1
                [HumanMessage question;
                 AIMessage (String.concat "" generation.1)] session.2).2)
        end
    end.
Proof.
  intros session chat_history.
  rewrite ask_question_delivered, run_create_chain. cbv zeta.
  fold session. fold chat_history.
  pose proof (chain_result llm retriever question chat_history ["chain_answer"])
    as Hres.
  pose proof (chain_delivered llm retriever question chat_history) as Hev.
  destruct (invoke retriever "context_retriever" question).2 as [docs|e].
  - cbv zeta in Hres.
    destruct (stream llm (prompt (format_documents docs) chat_history question)).2
      as [e|]; rewrite Hres; cbn [fst snd]; filter_simpl; rewrite Hev;
      cbn [List.filter app]; rewrite ?app_nil_r;
      cbn [async_for]; rewrite async_for_chunks; reflexivity.
  - rewrite Hres. cbn [fst snd]. filter_simpl. rewrite Hev. reflexivity.
Qed.

(** How the feed of the chain ends. *)
Lemma feed_end_cases (llm : BaseLanguageModel) (retriever : Retriever)
    (question session_id : string) (clock : Z * Z) (σ : State) :
  let session := resolved session_id clock σ in
  let chat_history := messages session.1 session.2 in
  feed_end (create_chain llm retriever) question session_id clock σ
  = match (invoke retriever "context_retriever" question).2 with
    | Raise e => Raise e
    | Ok documents =>
        match (stream llm (prompt (format_documents documents)
                             chat_history question)).2 with
        | Some e => Raise e
        | None => Ok tt
        end
    end.
Proof.
  intros session chat_history. rewrite feed_end_create_chain. cbv zeta.
  fold session. fold chat_history. rewrite chain_result.
  destruct (invoke retriever "context_retriever" question).2; [|done].
  cbv zeta. by destruct (stream llm _).2.
Qed.

(** *** Reading the values yielded *)

Lemma answer_chunks_strs (chunks : list string) :
  answer_chunks (map PyStr chunks) = chunks.
Proof.
  unfold answer_chunks. induction chunks as [|c chunks IH]; [done|].
  simpl. f_equal. exact IH.
Qed.

Lemma context_events_strs (chunks : list string) :
  context_events (map PyStr chunks) = [].
Proof. unfold context_events. by induction chunks. Qed.

Lemma answer_chunks_answer (documents : list Document) (chunks : list string) :
  answer_chunks (PyDocs documents :: map PyStr chunks) = chunks.
Proof. apply answer_chunks_strs. Qed.

Lemma context_events_answer (documents : list Document) (chunks : list string) :
  context_events (PyDocs documents :: map PyStr chunks) = [documents].
Proof.
  unfold context_events. simpl. f_equal. apply context_events_strs.
Qed.

(** A successful call, spelled out. *)
Lemma ask_success (llm : BaseLanguageModel) (retriever : Retriever)
    (question session_id : string) (clock : Z * Z) (σ : State) :
  feed_end (create_chain llm retriever) question session_id clock σ = Ok tt →
  let session := resolved session_id clock σ in
  ∃ documents chunks,
    (invoke retriever "context_retriever" question).2 = Ok documents
    ∧ stream llm (prompt (format_documents documents)
                    (messages session.1 session.2) question)
      = (chunks, None)
    ∧ ask_question (create_chain llm retriever) question session_id clock σ
      = ((PyDocs documents :: map PyStr chunks, Ok tt),
         (add_messages session.1
            [HumanMessage question; AIMessage (String.concat "" chunks)]
            session.2).2).
Proof.
  intros Hend session. rewrite feed_end_cases in Hend. cbv zeta in Hend.
  rewrite ask_question_create_chain. cbv zeta. fold session in Hend |- *.
  destruct (invoke retriever "context_retriever" question).2 as [docs|e];
    [|done].
  destruct (stream llm _) as [chunks [e|]] eqn:Hgen; [done|].
  exists docs, chunks. done.
Qed.

(** A failing call, spelled out: retrieval failed, or generation failed
    after some chunks. *)
Lemma ask_failure (llm : BaseLanguageModel) (retriever : Retriever)
    (question session_id : string) (clock : Z * Z) (σ : State) (e : PyExc) :
  feed_end (create_chain llm retriever) question session_id clock σ = Raise e →
  let session := resolved session_id clock σ in
  ∃ yielded,
    ask_question (create_chain llm retriever) question session_id clock σ
    = (try_except (yielded, Raise e) (λ e, tell (error_chunk e)), session.2)
    ∧ (yielded = []
       ∨ ∃ documents chunks, yielded = PyDocs documents :: map PyStr chunks).
Proof.
  intros Hend session. rewrite feed_end_cases in Hend. cbv zeta in Hend.
  rewrite ask_question_create_chain. cbv zeta. fold session in Hend |- *.
  destruct (invoke retriever "context_retriever" question).2 as [docs|e'].
  - destruct (stream llm _) as [chunks [e'|]] eqn:Hgen; [|done].
    simpl in Hend. injection Hend as ->.
    exists (PyDocs docs :: map PyStr chunks). split; [done|]. right. eauto.
  - injection Hend as ->. exists []. split; [done | by left].
Qed.

(** The pipeline keeps the store well formed. *)
Lemma wf_ask_question (llm : BaseLanguageModel) (retriever : Retriever)
    (question session_id : string) (clock : Z * Z) (σ : State) :
  wf σ →
  wf (ask_question (create_chain llm retriever) question session_id clock σ).2.
Proof.
  intros Hwf. rewrite ask_question_create_chain. cbv zeta.
  assert (Hsession : wf (resolved session_id clock σ).2)
    by (by apply wf_get_session_history).
  destruct (invoke retriever "context_retriever" question).2; [|done].
  destruct (stream llm _).2; [done|]. by apply wf_add_messages.
Qed.

End PipelineFacts.
Import PipelineFacts.

(** ** The retriever factory *)

Module RetrieverFacts.

(** One optional stage of [create_retriever]: it prints its warning, if
    any, and never raises when its compressor fails with an [Exception]. *)
Lemma stage_block (enabled : bool) (init : result Compressor)
    (warning : string) (prior : Retriever) :
  (∀ e, init = Raise e → isinstance_Exception e = true) →
  (if enabled
   then try_except
          (base_compressor ← call init;
           mret (ContextualCompressionRetriever base_compressor prior))
          (λ e, print (warning ++ str e);; mret prior)
   else mret prior)
  = (stage_warning enabled init warning, Ok (stage enabled init prior)).
Proof.
  intros Hexc. destruct enabled; [|done].
  destruct init as [c|e]; [done|].
  unfold try_except, call, mbind, Out_bind. cbn [fst snd].
  by rewrite (Hexc e eq_refl).
Qed.

End RetrieverFacts.
Import RetrieverFacts.

(** C1. Event ordering: when the feed of the chain ends without a failure,
    [ask_question] yields the documents the retriever returned for the
    question, once and first, then the answer chunks and nothing else, and
    ends normally; the concatenation of the answer chunks, in yield order,
    is the text of the assistant turn appended to the history of the
    session, after the human turn that carries the question. *)
Theorem ask_event_ordering (llm : BaseLanguageModel) (retriever : Retriever)
    (question session_id : string) (clock : Z * Z) (σ : State) :
  feed_end (create_chain llm retriever) question session_id clock σ = Ok tt →
  let session := resolved session_id clock σ in
  let r := ask_question (create_chain llm retriever) question session_id clock σ in
  ∃ documents chunks,
    (invoke retriever "context_retriever" question).2 = Ok documents
    ∧ r.1 = (PyDocs documents :: map PyStr chunks, Ok tt)
    ∧ context_events r.1.1 = [documents]
    ∧ answer_chunks r.1.1 = chunks
    ∧ messages session.1 r.2
      = (messages session.1 session.2
         ++ [HumanMessage question;
             AIMessage (String.concat "" (answer_chunks r.1.1))])%list.
Proof.
  intros Hend session r.
  destruct (ask_success _ _ _ _ _ _ Hend) as (docs & chunks & Hret & _ & Hask).
  exists docs, chunks. subst r. rewrite Hask. cbn [fst snd].
  rewrite answer_chunks_answer, context_events_answer.
  fold session. by rewrite messages_add_messages.
Qed.

Lemma ask_event_ordering_witness :
  let r := ask_question (create_chain example_llm example_retriever)
             "How much is the rose?" "s1" (0, 0) initial_state in
  ∃ documents chunks,
    (invoke example_retriever "context_retriever" "How much is the rose?").2
    = Ok documents
    ∧ r.1 = (PyDocs documents :: map PyStr chunks, Ok tt)
    ∧ context_events r.1.1 = [documents]
    ∧ answer_chunks r.1.1 = chunks
    ∧ messages 1%positive r.2
      = [HumanMessage "How much is the rose?";
         AIMessage (String.concat "" (answer_chunks r.1.1))].
Proof.
  apply (ask_event_ordering example_llm example_retriever
           "How much is the rose?" "s1" (0, 0) initial_state).
  reflexivity.
Defined.

(** C6. History replay: for a session id that is new to the store, after a
    successful [ask_question] of [q1] and then, with the sweep of the second
    call within the timeout of the first, a successful [ask_question] of
    [q2], the history of the session holds exactly four turns: the human
    turn of [q1], the assistant turn with the answer yielded for it, the
    human turn of [q2] and the assistant turn with its answer. The turns of
    a call are appended when its feed has completed: a call whose feed
    fails leaves the turns of the history it resolved as they were. *)
Theorem history_replay (llm : BaseLanguageModel) (retriever : Retriever)
    (q1 q2 s : string) (clock1 clock2 : Z * Z) (σ : State) :
  let chain := create_chain llm retriever in
  let first := ask_question chain q1 s clock1 σ in
  let second := ask_question chain q2 s clock2 first.2 in
  (store σ !! s = None →
   clock2.2 - clock1.1 ≤ timeout σ →
   feed_end chain q1 s clock1 σ = Ok tt →
   feed_end chain q2 s clock2 first.2 = Ok tt →
   ∃ d, store second.2 !! s = Some d
        ∧ messages (history d) second.2
          = [HumanMessage q1;
             AIMessage (String.concat "" (answer_chunks first.1.1));
             HumanMessage q2;
             AIMessage (String.concat "" (answer_chunks second.1.1))])
  ∧ (∀ e, feed_end chain q1 s clock1 σ = Raise e →
          messages (resolved s clock1 σ).1 first.2
          = messages (resolved s clock1 σ).1 (resolved s clock1 σ).2).
Proof.
  intros chain first second. split.
  - intros Hnew Hwin Hend1 Hend2.
    destruct (ask_success _ _ _ _ _ _ Hend1) as (docs1 & chunks1 & _ & _ & Hask1).
    fold chain in Hask1. fold first in Hask1.
    (* the first call creates the session *)
    assert (Hres1 : resolved s clock1 σ
                    = get_session_history s clock1.1 clock1.2 σ) by done.
    rewrite get_session_history_absent in Hres1
      by (intros d Hd; by rewrite Hnew in Hd).
    set (h := fresh (dom (heap σ))) in *.
    set (σ1 := (resolved s clock1 σ).2) in *.
    assert (Hh1 : (resolved s clock1 σ).1 = h) by (by rewrite Hres1).
    assert (Hempty : messages h σ1 = []).
    { subst σ1. rewrite Hres1. unfold messages. simpl.
      by rewrite lookup_insert_eq. }
    assert (Hstore1 : store σ1 !! s = Some (new_session σ clock1.1)).
    { subst σ1. rewrite Hres1. unfold store. simpl. by rewrite lookup_insert_eq. }
    assert (Htime1 : timeout σ1 = timeout σ) by (subst σ1; by rewrite Hres1).
    rewrite Hh1 in Hask1.
    assert (Hfirst2 : first.2
                      = (add_messages h
                           [HumanMessage q1; AIMessage (String.concat "" chunks1)]
                           σ1).2) by (by rewrite Hask1).
    assert (Hmsgs1 : messages h first.2
                     = [HumanMessage q1; AIMessage (String.concat "" chunks1)]).
    { rewrite Hfirst2, messages_add_messages, Hempty. done. }
    (* the second call finds it *)
    destruct (ask_success _ _ _ _ _ _ Hend2) as (docs2 & chunks2 & _ & _ & Hask2).
    fold chain in Hask2. fold second in Hask2.
    assert (Hres2 : resolved s clock2 first.2
                    = get_session_history s clock2.1 clock2.2 first.2) by done.
    rewrite (get_session_history_live _ _ _ _ (new_session σ clock1.1)) in Hres2.
    2: { by rewrite Hfirst2. }
    2: { unfold stale. rewrite Hfirst2.
         change (timeout (add_messages _ _ σ1).2) with (timeout σ1).
         rewrite Htime1. simpl. lia. }
    rewrite Hres2 in Hask2. cbn [fst snd history new_session] in Hask2.
    fold h in Hask2.
    exists (refreshed clock2.1 (new_session σ clock1.1)). split.
    + rewrite Hask2. unfold store. simpl. by rewrite lookup_insert_eq.
    + cbn [history refreshed new_session]. fold h.
      rewrite Hask1, Hask2. cbn [fst snd].
      rewrite !answer_chunks_answer, messages_add_messages.
      unfold messages at 1. cbn [heap]. fold (messages h first.2).
      by rewrite Hmsgs1.
  - intros e Hend.
    destruct (ask_failure _ _ _ _ _ _ _ Hend) as (yielded & Hask & _).
    fold chain in Hask. fold first in Hask. by rewrite Hask.
Qed.

Lemma history_replay_witness :
  let chain := create_chain example_llm example_retriever in
  let first := ask_question chain "rose?" "s" (0, 0) initial_state in
  let second := ask_question chain "fern?" "s" (60, 61) first.2 in
  ∃ d, store second.2 !! "s" = Some d
       ∧ messages (history d) second.2
         = [HumanMessage "rose?";
            AIMessage (String.concat "" (answer_chunks first.1.1));
            HumanMessage "fern?";
            AIMessage (String.concat "" (answer_chunks second.1.1))].
Proof.
  apply (history_replay example_llm example_retriever "rose?" "fern?" "s"
           (0, 0) (60, 61) initial_state).
  - reflexivity.
  - vm_compute. discriminate.
  - reflexivity.
  - reflexivity.
Defined.

(** C7. A failure is surfaced as data. For every chain: when the feed or
    the loop body raises an [Exception] after the values [yielded], the
    generator yields exactly one further value, the error chunk built from
    the message of the exception, and then ends normally; no [Exception]
    ever leaves [ask_question]. For the chain of [create_chain]: when
    retrieval or generation fails with an [Exception], what was yielded
    before the error chunk is nothing (retrieval failed) or the retrieved
    documents and the chunks generated so far (generation failed). *)
Theorem ask_question_failure_is_data (chain : Runnable)
    (llm : BaseLanguageModel) (retriever : Retriever)
    (question session_id : string) (clock : Z * Z) (σ : State) :
  let feed :=
    (astream_events chain question session_id clock
       ["context_retriever"; "chain_answer"] σ).1 in
  let r := (ask_question chain question session_id clock σ).1 in
  let r' := (ask_question (create_chain llm retriever)
               question session_id clock σ).1 in
  (∀ yielded e,
     async_for feed.1 feed.2 loop_body = (yielded, Raise e) →
     isinstance_Exception e = true →
     r = ((yielded ++ [error_chunk e])%list, Ok tt))
  ∧ (∀ e, r.2 = Raise e → isinstance_Exception e = false)
  ∧ (∀ e, feed_end (create_chain llm retriever) question session_id clock σ
          = Raise e →
          isinstance_Exception e = true →
          ∃ yielded,
            r' = ((yielded ++ [error_chunk e])%list, Ok tt)
            ∧ (yielded = []
               ∨ ∃ documents chunks,
                   yielded = PyDocs documents :: map PyStr chunks)).
Proof.
  intros feed r r'.
  assert (Hr : r = try_except (async_for feed.1 feed.2 loop_body)
                     (λ e, tell (error_chunk e))).
  { subst r feed. unfold ask_question.
    by destruct (astream_events _ _ _ _ _ _) as [[events e] σ']. }
  split; [|split].
  - intros yielded e Hbody Hexc. rewrite Hr, Hbody. unfold try_except.
    by rewrite Hexc.
  - intros e. rewrite Hr.
    destruct (async_for feed.1 feed.2 loop_body) as [yielded [[]|e']]; [done|].
    unfold try_except. destruct (isinstance_Exception e') eqn:Hexc; [done|].
    by intros [= <-].
  - intros e Hend Hexc.
    destruct (ask_failure _ _ _ _ _ _ _ Hend) as (yielded & Hask & Hshape).
    exists yielded. split; [|exact Hshape].
    subst r'. rewrite Hask. unfold try_except. by rewrite Hexc.
Qed.

Lemma ask_question_failure_is_data_witness :
  (ask_question (create_chain failing_llm example_retriever)
     "rose?" "s" (0, 0) initial_state).1
  = ([PyDocs [rose; fern]; PyStr "Hel";
      PyStr "Error processing question: connection reset"], Ok tt).
Proof.
  destruct (ask_question_failure_is_data
              (create_chain failing_llm example_retriever)
              failing_llm example_retriever "rose?" "s" (0, 0) initial_state)
    as (Hloop & _ & _).
  apply (Hloop [PyDocs [rose; fern]; PyStr "Hel"] (Exception "connection reset"));
    reflexivity.
Defined.

(** C4, the claim as stated, fails: [ask_question] does not look at the
    question before it runs the chain. With collaborators that accept the
    empty question, the call yields the retrieved documents and the answer
    chunks, none of them an error, and the history of the session gains the
    two turns of the exchange. *)
Lemma ask_empty_question_is_answered :
  let r := ask_question (create_chain example_llm example_retriever)
             "" "s" (0, 0) initial_state in
  r.1 = ([PyDocs [rose; fern]; PyStr "Hel"; PyStr "lo"], Ok tt)
  ∧ messages (resolved "s" (0, 0) initial_state).1
      (resolved "s" (0, 0) initial_state).2 = []
  ∧ messages (resolved "s" (0, 0) initial_state).1 r.2
    = [HumanMessage ""; AIMessage "Hello"].
Proof. repeat split. Qed.

(** C4, amended. [ask_question] performs no validation of the question: a
    question that is empty or whitespace-only after trimming is passed to
    the retriever as it is, like any other. When retrieval and generation
    succeed, the call yields the retrieved-context event and the answer
    chunks, and the human turn with the question and the assistant turn
    with the answer are appended to the history of the session. Only when
    a collaborator fails does the call end with one error chunk, after what
    was yielded before, and the turns of the history stay as they were. *)
Theorem ask_question_no_validation (llm : BaseLanguageModel) (retriever : Retriever)
    (question session_id : string) (clock : Z * Z) (σ : State) :
  strip question = "" →
  let session := resolved session_id clock σ in
  let r := ask_question (create_chain llm retriever) question session_id clock σ in
  match feed_end (create_chain llm retriever) question session_id clock σ with
  | Ok _ =>
      ∃ documents chunks,
        (invoke retriever "context_retriever" question).2 = Ok documents
        ∧ r.1 = (PyDocs documents :: map PyStr chunks, Ok tt)
        ∧ messages session.1 r.2
          = (messages session.1 session.2
             ++ [HumanMessage question; AIMessage (String.concat "" chunks)])%list
  | Raise e =>
      messages session.1 r.2 = messages session.1 session.2
      ∧ (isinstance_Exception e = true →
         ∃ yielded, r.1 = ((yielded ++ [error_chunk e])%list, Ok tt))
  end.
Proof.
  intros _ session r.
  destruct (feed_end _ _ _ _ _) as [[]|e] eqn:Hend.
  - destruct (ask_success _ _ _ _ _ _ Hend) as (docs & chunks & Hret & _ & Hask).
    exists docs, chunks. subst r. rewrite Hask. cbn [fst snd]. fold session.
    by rewrite messages_add_messages.
  - destruct (ask_failure _ _ _ _ _ _ _ Hend) as (yielded & Hask & _).
    subst r. rewrite Hask. split; [done|].
    intros Hexc. exists yielded. unfold try_except. by rewrite Hexc.
Qed.

Lemma ask_question_no_validation_witness :
  let r := ask_question (create_chain example_llm example_retriever)
             "   " "s" (0, 0) initial_state in
  ∃ documents chunks,
    (invoke example_retriever "context_retriever" "   ").2 = Ok documents
    ∧ r.1 = (PyDocs documents :: map PyStr chunks, Ok tt)
    ∧ messages 1%positive r.2
      = [HumanMessage "   "; AIMessage (String.concat "" chunks)].
Proof.
  apply (ask_question_no_validation example_llm example_retriever
           "   " "s" (0, 0) initial_state).
  reflexivity.
Defined.

(** C8. Graceful degradation: when the vector store is available and the
    optional stages (reranker, chain filter) fail only with [Exception]s,
    [create_retriever] returns normally, never raising [RetrieverError]:
    each stage that is enabled and fails to initialize prints one warning
    and is skipped, so that the retriever returned is built on the retriever
    of the prior stage. When every enabled stage failed, retrieval through
    the retriever returned is the similarity search of the base retriever.
    Whenever retrieval through the retriever returned gives [documents] and
    the chat model, on the prompt made of these documents, the prior turns
    of the session and the question, streams [chunks] to the end,
    [ask_question] on the chain over that retriever yields the documents,
    then exactly the chunks of the model, and nothing else: no error chunk
    is yielded, and the call ends normally. *)
Theorem optional_stage_degradation (env : Environment) (llm : BaseLanguageModel)
    (vector_store : option VectorStore) (vs : VectorStore)
    (question session_id : string) (clock : Z * Z) (σ : State) :
  vector_store_available env vector_store vs →
  (∀ e, create_reranker env = Raise e → isinstance_Exception e = true) →
  (∀ e, from_llm env llm = Raise e → isinstance_Exception e = true) →
  let base := base_retriever_of env vs in
  let reranked := stage (USE_RERANKER env) (create_reranker env) base in
  let degraded := stage (USE_CHAIN_FILTER env) (from_llm env llm) reranked in
  let session := resolved session_id clock σ in
  create_retriever env llm vector_store
  = ((stage_warning (USE_RERANKER env) (create_reranker env)
        "Warning: Reranker initialization failed: "
      ++ stage_warning (USE_CHAIN_FILTER env) (from_llm env llm)
           "Warning: Chain filter initialization failed: ")%list,
     Ok degraded)
  ∧ ((USE_RERANKER env = true → ∃ e, create_reranker env = Raise e) →
     (USE_CHAIN_FILTER env = true → ∃ e, from_llm env llm = Raise e) →
     (invoke degraded "context_retriever" question).2
     = similarity_search vs question (TOP_K env))
  ∧ (∀ documents chunks,
       (invoke degraded "context_retriever" question).2 = Ok documents →
       stream llm (prompt (format_documents documents)
                     (messages session.1 session.2) question)
       = (chunks, None) →
       (ask_question (create_chain llm degraded) question session_id clock σ).1
       = (PyDocs documents :: map PyStr chunks, Ok tt)).
Proof.
  intros Hvs Hrerank Hfilter base reranked degraded session. split; [|split].
  - assert (Hstore :
      (match vector_store with
       | Some v => mret v
       | None => call (create_embeddings env);; call (from_existing_collection env)
       end : Out string VectorStore) = ([], Ok vs)).
    { destruct Hvs as [->|(-> & Hemb & Hcol)]; [done|].
      by rewrite Hemb, Hcol. }
    unfold create_retriever. rewrite Hstore. clear Hstore.
    rewrite (Out_bind_unfold ([], Ok vs)). cbn [fst snd app].
    rewrite Out_bind_unfold, (stage_block _ _ _ _ Hrerank). cbn [fst snd].
    rewrite Out_bind_unfold, (stage_block _ _ _ _ Hfilter). cbn [fst snd].
    cbn [mret Out_ret fst snd]. by rewrite app_nil_r.
  - intros Hreranker Hchain_filter.
    assert (Hbase : degraded = base).
    { unfold degraded, reranked, stage.
      destruct (USE_CHAIN_FILTER env).
      - destruct Hchain_filter as [e ->]; [done|].
        destruct (USE_RERANKER env); [|done].
        by destruct Hreranker as [e' ->].
      - destruct (USE_RERANKER env); [|done].
        by destruct Hreranker as [e' ->]. }
    rewrite Hbase, invoke_result. reflexivity.
  - intros documents chunks Hretrieval Hgeneration.
    rewrite ask_question_create_chain. cbv zeta. fold session.
    by rewrite Hretrieval, Hgeneration.
Qed.

Lemma optional_stage_degradation_witness :
  create_retriever example_env example_llm None
  = (["Warning: Reranker initialization failed: model not found"],
     Ok example_retriever)
  ∧ (invoke example_retriever "context_retriever" "rose?").2 = Ok [rose; fern]
  ∧ (ask_question (create_chain example_llm example_retriever)
       "rose?" "s" (0, 0) initial_state).1
    = ([PyDocs [rose; fern]; PyStr "Hel"; PyStr "lo"], Ok tt).
Proof.
  assert (Hvs : vector_store_available example_env None example_store).
  { right. repeat split. }
  assert (Hrerank : ∀ e, create_reranker example_env = Raise e →
                         isinstance_Exception e = true).
  { intros e [= <-]. reflexivity. }
  assert (Hfilter : ∀ e, from_llm example_env example_llm = Raise e →
                         isinstance_Exception e = true).
  { intros e [= <-]. reflexivity. }
  destruct (optional_stage_degradation example_env example_llm None example_store
              "rose?" "s" (0, 0) initial_state Hvs Hrerank Hfilter)
    as (Hcreate & Hbase & Hask).
  split; [exact Hcreate | split].
  - apply Hbase.
    + intros _. eexists. reflexivity.
    + discriminate.
  - apply (Hask [rose; fern] ["Hel"; "lo"]); reflexivity.
Defined.

(** * Further properties of the code *)

(** ** The session store, beyond the claims *)

Module SessionExtras.

Lemma clean_state (σ : State) (now : Z) :
  (_clean_expired_sessions now σ).2
  = {| heap := heap σ;
       session_manager :=
         {| sessions := store (_clean_expired_sessions now σ).2;
            session_timeout := timeout σ |} |}.
Proof. reflexivity. Qed.

End SessionExtras.
Import SessionExtras.

(** X1. Invariant of the store: in every state the module reaches, the
    timeout is one hour, every session owns a history object that exists,
    and no two sessions share a history object. *)
Theorem reachable_wf (σ : State) : reachable σ → wf σ.
Proof.
  induction 1 as [|σ sid t1 t2 _ IH|σ h ms _ IH|σ sid _ IH].
  - apply wf_initial.
  - by apply wf_get_session_history.
  - by apply wf_add_messages.
  - by apply wf_get_session_info.
Qed.

Lemma reachable_wf_witness :
  wf (get_session_history "b" 5 6
        (add_messages 1%positive [HumanMessage "hi"]
           (get_session_history "a" 0 0 initial_state).2).2).2.
Proof.
  apply reachable_wf.
  apply reachable_access, reachable_append, reachable_access, reachable_initial.
Defined.

(** X2. Sweeps compose: a sweep followed by a sweep at a later clock
    reading leaves the state that the later sweep alone leaves; in
    particular a sweep repeated at the same reading changes nothing more. *)
Theorem sweep_absorbs (σ : State) (now now' : Z) :
  now ≤ now' →
  (_clean_expired_sessions now' (_clean_expired_sessions now σ).2).2
  = (_clean_expired_sessions now' σ).2.
Proof.
  intros Hle. rewrite (clean_state _ now'), (clean_state σ now').
  f_equal. f_equal. apply map_eq. intros k.
  rewrite !clean_lookup.
  change (timeout (_clean_expired_sessions now σ).2) with (timeout σ).
  destruct (store σ !! k) as [d|]; simpl; [|done].
  destruct (is_expired (timeout σ) now d) eqn:H1; simpl; [|done].
  destruct (is_expired (timeout σ) now' d) eqn:H2; [done|].
  exfalso. unfold is_expired in H1, H2.
  apply bool_decide_eq_true in H1. apply bool_decide_eq_false in H2. lia.
Qed.

Lemma sweep_absorbs_witness :
  let σ := (get_session_history "a" 0 0 initial_state).2 in
  (_clean_expired_sessions (hours 3) (_clean_expired_sessions (hours 2) σ).2).2
  = (_clean_expired_sessions (hours 3) σ).2.
Proof.
  apply (sweep_absorbs (get_session_history "a" 0 0 initial_state).2
           (hours 2) (hours 3)).
  vm_compute. discriminate.
Defined.

(** X3. An access never touches a history object that exists: whatever
    session is accessed, created or swept, every object of the heap keeps
    its turns, the history of a swept session included (a handle outlives
    its session). *)
Theorem access_keeps_histories (σ : State) (sid : string) (t1 t2 : Z)
    (h : ref) (ms : list BaseMessage) :
  heap σ !! h = Some ms →
  heap (get_session_history sid t1 t2 σ).2 !! h = Some ms.
Proof.
  intros Hh. rewrite get_session_history_heap.
  destruct (store _ !! sid); [done|].
  rewrite lookup_insert_ne; [done|].
  intros Heq. apply (is_fresh (dom (heap σ))). rewrite Heq.
  apply elem_of_dom. eauto.
Qed.

Lemma access_keeps_histories_witness :
  let σ := (add_messages 1%positive [HumanMessage "hi"]
              (get_session_history "a" 0 0 initial_state).2).2 in
  heap (get_session_history "a" (hours 5) (hours 5) σ).2 !! 1%positive
  = Some [HumanMessage "hi"].
Proof.
  apply (access_keeps_histories _ "a" (hours 5) (hours 5) 1%positive
           [HumanMessage "hi"]).
  reflexivity.
Defined.

(** X4. Access, then inspect: [get_session_info] right after
    [get_session_history] for the same id always finds the session, last
    accessed at the first clock reading of the access. For an id that was
    absent or stale it reports a session created at that reading with no
    turns; for a live session it reports the old creation time and the
    number of turns the history had. *)
Theorem info_after_access (σ : State) (sid : string) (t1 t2 : Z) :
  let after := (get_session_history sid t1 t2 σ).2 in
  ((∀ d, store σ !! sid = Some d → stale σ t2 d) →
   (get_session_info sid after).1
   = Some {| info_created_at := t1; info_last_accessed := t1;
             message_count := 0 |})
  ∧ (∀ d, store σ !! sid = Some d → ¬ stale σ t2 d →
     (get_session_info sid after).1
     = Some {| info_created_at := created_at d; info_last_accessed := t1;
               message_count := length (messages (history d) σ) |}).
Proof.
  intros after. split.
  - intros Hgone. subst after. rewrite get_session_history_absent by done.
    unfold get_session_info, mbind, St_bind, get_self, gets. simpl.
    rewrite lookup_insert_eq. simpl. unfold messages. simpl.
    by rewrite lookup_insert_eq.
  - intros d Hd Hlive. subst after.
    rewrite (get_session_history_live _ _ _ _ d) by done.
    unfold get_session_info, mbind, St_bind, get_self, gets. simpl.
    by rewrite lookup_insert_eq.
Qed.

Lemma info_after_access_witness :
  let σ := (add_messages 1%positive [HumanMessage "hi"]
              (get_session_history "a" 0 0 initial_state).2).2 in
  (get_session_info "a" (get_session_history "a" 7 8 σ).2).1
  = Some {| info_created_at := 0; info_last_accessed := 7; message_count := 1 |}
  ∧ (get_session_info "a"
       (get_session_history "a" (hours 2) (hours 2) σ).2).1
    = Some {| info_created_at := hours 2; info_last_accessed := hours 2;
              message_count := 0 |}.
Proof.
  set (σ := (add_messages 1%positive [HumanMessage "hi"]
               (get_session_history "a" 0 0 initial_state).2).2).
  set (a := {| history := 1%positive; created_at := 0; last_accessed := 0 |}).
  split.
  - apply (proj2 (info_after_access σ "a" 7 8) a); [reflexivity|].
    vm_compute. discriminate.
  - apply (proj1 (info_after_access σ "a" (hours 2) (hours 2))).
    intros d [= <-]. vm_compute. reflexivity.
Defined.

(** X5. An access adds at most one session: afterwards the session
    accessed is in the store, every other session of the store was there
    before, and the store has at most one session more than before. *)
Theorem access_adds_at_most_one (σ : State) (sid : string) (t1 t2 : Z) :
  let after := (get_session_history sid t1 t2 σ).2 in
  is_Some (store after !! sid)
  ∧ (∀ k, is_Some (store after !! k) → k = sid ∨ is_Some (store σ !! k))
  ∧ (size (store after) ≤ S (size (store σ)))%nat.
Proof.
  intros after.
  assert (Hin : is_Some (store after !! sid)).
  { subst after. rewrite get_session_history_lookup, decide_True by done. eauto. }
  assert (Hsub : ∀ k, is_Some (store after !! k) →
                      k = sid ∨ is_Some (store σ !! k)).
  { intros k [d Hk]. subst after. rewrite get_session_history_lookup in Hk.
    destruct (decide (k = sid)) as [->|Hne]; [by left|]. right.
    apply clean_lookup_Some in Hk as [Hk _]. eauto. }
  split; [exact Hin|]. split; [exact Hsub|].
  rewrite <- !size_dom.
  transitivity (size ({[sid]} ∪ dom (store σ) : gset string)).
  - apply subseteq_size. intros k Hk. apply elem_of_dom in Hk.
    destruct (Hsub k Hk) as [->|Hk'];
      [by apply elem_of_union_l, elem_of_singleton|].
    apply elem_of_union_r, elem_of_dom, Hk'.
  - rewrite size_union_alt, size_singleton. simpl.
    apply le_n_S, subseteq_size. intros x Hx.
    by apply elem_of_difference in Hx as [Hx _].
Qed.

(** X6. Sliding expiry: a session stays alive as long as each access
    sweeps within the timeout of the access before it, however long ago the
    session was created; it keeps its history object and its creation time,
    and its last access is the first clock reading of the latest access. *)
Theorem session_kept_alive (σ : State) (sid : string) (d : SessionData)
    (clocks : list (Z * Z)) :
  store σ !! sid = Some d →
  never_idle (timeout σ) (last_accessed d) clocks →
  store (access_all sid clocks σ) !! sid
  = Some {| history := history d; created_at := created_at d;
            last_accessed := last_access (last_accessed d) clocks |}.
Proof.
  revert σ d. induction clocks as [|clock rest IH]; intros σ d Hd Hidle.
  - simpl. rewrite Hd. by destruct d.
  - destruct Hidle as [Hnow Hrest]. simpl.
    assert (Hlive : ¬ stale σ clock.2 d) by (unfold stale; lia).
    rewrite (IH _ (refreshed clock.1 d)).
    + done.
    + rewrite (get_session_history_live _ _ _ _ d) by done.
      unfold store. simpl. by rewrite lookup_insert_eq.
    + by rewrite get_session_history_timeout.
Qed.

Lemma session_kept_alive_witness :
  let σ := (get_session_history "a" 0 0 initial_state).2 in
  store (access_all "a" [(hours 1, hours 1); (hours 2, hours 2);
                          (hours 3, hours 3)] σ) !! "a"
  = Some {| history := 1%positive; created_at := 0; last_accessed := hours 3 |}.
Proof.
  apply (session_kept_alive (get_session_history "a" 0 0 initial_state).2 "a"
           {| history := 1%positive; created_at := 0; last_accessed := 0 |}
           [(hours 1, hours 1); (hours 2, hours 2); (hours 3, hours 3)]).
  - reflexivity.
  - vm_compute. repeat split; discriminate.
Defined.

(** ** The context formatter, beyond the claims *)

Module FormatterExtras.

Lemma re_sub_delete_id (cls : ascii → bool) (s : string) :
  (∀ c, cls c = true → contains c s = false) → re_sub_delete cls s = s.
Proof.
  induction s as [|a s IH]; intros Hs; [done|]. simpl.
  destruct (cls a) eqn:Ha.
  - specialize (Hs a Ha). simpl in Hs. by rewrite Ascii.eqb_refl in Hs.
  - f_equal. apply IH. intros c Hc. specialize (Hs c Hc). simpl in Hs.
    by apply orb_false_iff in Hs as [_ Hs].
Qed.

Lemma concat_app (sep : string) (l1 l2 : list string) :
  l1 ≠ [] → l2 ≠ [] →
  String.concat sep (l1 ++ l2) = String.concat sep l1 ++ sep ++ String.concat sep l2.
Proof.
  intros H1 H2. induction l1 as [|x l1 IH]; [done|].
  destruct l1 as [|y l1].
  - simpl. by destruct l2.
  - change (String.concat sep ((x :: y :: l1) ++ l2))
      with (x ++ sep ++ String.concat sep ((y :: l1) ++ l2)).
    rewrite IH by done.
    change (String.concat sep (x :: y :: l1))
      with (x ++ sep ++ String.concat sep (y :: l1)).
    by rewrite !append_assoc.
Qed.

Lemma lstrip_sublist (s : string) : sublist (list_ascii_of_string (lstrip s)) (list_ascii_of_string s).
Proof.
  induction s as [|a s IH]; simpl; [done|].
  destruct (isspace a); [by apply sublist_cons | done].
Qed.

Lemma rstrip_sublist (s : string) : sublist (list_ascii_of_string (rstrip s)) (list_ascii_of_string s).
Proof.
  induction s as [|a s IH]; simpl; [done|].
  destruct (rstrip s) as [|b r] eqn:Hr.
  - destruct (isspace a); simpl.
    + apply sublist_nil_l.
    + apply sublist_skip, sublist_nil_l.
  - simpl. by apply sublist_skip.
Qed.

Lemma re_sub_delete_sublist (cls : ascii → bool) (s : string) :
  sublist (list_ascii_of_string (re_sub_delete cls s))
          (list_ascii_of_string s).
Proof.
  induction s as [|a s IH]; simpl; [done|].
  destruct (cls a); simpl; [by apply sublist_cons | by apply sublist_skip].
Qed.

End FormatterExtras.
Import FormatterExtras.

(** X7. A passage text that has no whitespace at its ends and none of the
    four template characters reaches the context verbatim: the context of
    such passages is their texts, each followed by the delimiter line. *)
Theorem format_documents_verbatim (documents : list Document) :
  Forall (λ doc, strip (page_content doc) = page_content doc
                 ∧ ∀ c, template_delimiter c = true →
                        contains c (page_content doc) = false) documents →
  format_documents documents
  = join nl (map (λ doc, page_content doc ++ nl ++ "---") documents).
Proof.
  intros Hall. rewrite format_documents_blocks. f_equal.
  induction Hall as [|doc documents [Hstrip Hcls] _ IH]; [done|].
  simpl. rewrite IH. f_equal. unfold block, clean.
  by rewrite Hstrip, re_sub_delete_id.
Qed.

Lemma format_documents_verbatim_witness :
  format_documents [mkDocument "Price: $5" []; mkDocument "Rating: 4.5" []]
  = "Price: $5" ++ nl ++ "---" ++ nl ++ "Rating: 4.5" ++ nl ++ "---".
Proof.
  apply (format_documents_verbatim
           [mkDocument "Price: $5" []; mkDocument "Rating: 4.5" []]).
  repeat constructor; intros c Hc;
    unfold template_delimiter in Hc;
    repeat (apply orb_true_iff in Hc as [Hc|Hc]);
    apply Ascii.eqb_eq in Hc; subst c; reflexivity.
Defined.

(** X8. Contexts compose: the context of two lists of passages put end to
    end, neither empty, is the context of the first, a newline, and the
    context of the second. *)
Theorem format_documents_app (documents1 documents2 : list Document) :
  documents1 ≠ [] → documents2 ≠ [] →
  format_documents (documents1 ++ documents2)
  = format_documents documents1 ++ nl ++ format_documents documents2.
Proof.
  intros H1 H2. rewrite !format_documents_blocks. unfold join.
  rewrite map_app. apply concat_app; by destruct documents1, documents2.
Qed.

Lemma format_documents_app_witness :
  format_documents ([rose] ++ [fern])
  = format_documents [rose] ++ nl ++ format_documents [fern].
Proof. apply (format_documents_app [rose] [fern]); discriminate. Defined.

(** X9. Cleaning only deletes: the cleaned text of a passage is its text
    with some characters left out; no character is added, changed or moved. *)
Theorem clean_only_deletes (doc : Document) :
  sublist (list_ascii_of_string (clean doc))
          (list_ascii_of_string (page_content doc)).
Proof.
  unfold clean, strip.
  etransitivity; [apply re_sub_delete_sublist|].
  etransitivity; [apply rstrip_sublist|]. apply lstrip_sublist.
Qed.

(** ** The loop of [ask_question], beyond the claims *)

(** X10. What [ask_question] looks at in the feed: an event reaches its
    loop only when the name of its run is one of the two listed names
    ([context_retriever], [chain_answer]), and the loop acts on it only when
    its type is [on_retriever_end] or [on_chain_stream]; the type and the
    name are tested apart, so each of the two types counts under each of
    the two names. Two chains whose raw feeds agree on the events of these
    types under these names, and end the same way, make [ask_question]
    yield the same values and end the same way, whatever other events their
    feeds carry. *)
Theorem ask_question_ignores_other_events (chain1 chain2 : Runnable)
    (question session_id : string) (clock : Z * Z) (σ1 σ2 : State) :
  let feed1 := (run chain1 question session_id clock σ1).1 in
  let feed2 := (run chain2 question session_id clock σ2).1 in
  List.filter delivered feed1.1 = List.filter delivered feed2.1 →
  feed1.2 = feed2.2 →
  (ask_question chain1 question session_id clock σ1).1
  = (ask_question chain2 question session_id clock σ2).1.
Proof.
  intros feed1 feed2 Hevents Hend.
  rewrite !ask_question_delivered. cbv zeta. cbn [fst].
  fold feed1 feed2. by rewrite Hevents, Hend.
Qed.

Lemma ask_question_ignores_other_events_witness :
  let noisy :=
    mkRunnable (λ _ _ _ σ,
      (([mkStreamEvent "on_chain_start" "chain_answer" no_data;
         chain_stream "RunnableSequence" "Hel";
         retriever_end "chain_answer" [rose];
         chain_stream "chain_answer" "Hel";
         retriever_end "VectorStoreRetriever" [rose]], Ok tt), σ)) in
  let quiet :=
    mkRunnable (λ _ _ _ σ,
      (([retriever_end "chain_answer" [rose];
         chain_stream "chain_answer" "Hel"], Ok tt), σ)) in
  (ask_question noisy "q" "s" (0, 0) initial_state).1
  = (ask_question quiet "q" "s" (0, 0) initial_state).1.
Proof.
  apply (ask_question_ignores_other_events
           (mkRunnable (λ _ _ _ σ,
              (([mkStreamEvent "on_chain_start" "chain_answer" no_data;
                 chain_stream "RunnableSequence" "Hel";
                 retriever_end "chain_answer" [rose];
                 chain_stream "chain_answer" "Hel";
                 retriever_end "VectorStoreRetriever" [rose]], Ok tt), σ)))
           (mkRunnable (λ _ _ _ σ,
              (([retriever_end "chain_answer" [rose];
                 chain_stream "chain_answer" "Hel"], Ok tt), σ)))
           "q" "s" (0, 0) initial_state initial_state); reflexivity.
Defined.

(** ** The retriever factory, beyond the claims *)

(** X11. When no vector store is passed and the existing collection cannot
    be opened (the embeddings or the collection fail with an [Exception]),
    [create_retriever] raises [RetrieverError] with the message of the
    failure after the prefix [Failed to create retriever: ], prints nothing,
    and attempts no optional stage. *)
Theorem create_retriever_store_failure (env : Environment)
    (llm : BaseLanguageModel) (e : PyExc) :
  create_embeddings env = Raise e
  ∨ (create_embeddings env = Ok tt ∧ from_existing_collection env = Raise e) →
  isinstance_Exception e = true →
  create_retriever env llm None
  = ([], Raise (RetrieverError ("Failed to create retriever: " ++ str e))).
Proof.
  intros Hfail Hexc. unfold create_retriever.
  destruct Hfail as [Hemb|[Hemb Hcol]]; rewrite Hemb, ?Hcol;
    unfold try_except, mbind, Out_bind, call, raise; cbn [fst snd];
    by rewrite Hexc.
Qed.

Lemma create_retriever_store_failure_witness :
  create_retriever
    {| USE_RERANKER := true; USE_CHAIN_FILTER := true; TOP_K := 5;
       create_embeddings := Ok tt;
       from_existing_collection := Raise (Exception "collection not found");
       create_reranker := Raise (Exception "model not found");
       from_llm := λ _, Raise (Exception "no filter") |}
    example_llm None
  = ([], Raise (RetrieverError
                  "Failed to create retriever: collection not found")).
Proof.
  apply (create_retriever_store_failure
           {| USE_RERANKER := true; USE_CHAIN_FILTER := true; TOP_K := 5;
              create_embeddings := Ok tt;
              from_existing_collection := Raise (Exception "collection not found");
              create_reranker := Raise (Exception "model not found");
              from_llm := λ _, Raise (Exception "no filter") |}
           example_llm (Exception "collection not found"));
    [right; split; reflexivity | reflexivity].
Defined.

(** X12. The only [Exception] that [create_retriever] raises is
    [RetrieverError]: whatever it raises is a [RetrieverError] or is not an
    [Exception] at all (an interrupt or a cancellation, passed on as it is). *)
Theorem create_retriever_raises_only_RetrieverError (env : Environment)
    (llm : BaseLanguageModel) (vector_store : option VectorStore)
    (out : list string) (e : PyExc) :
  create_retriever env llm vector_store = (out, Raise e) →
  (∃ m, e = RetrieverError m) ∨ isinstance_Exception e = false.
Proof.
  unfold create_retriever.
  match goal with |- try_except ?body _ = _ → _ => destruct body as [o [r|e']] end;
    unfold try_except.
  - discriminate.
  - destruct (isinstance_Exception e') eqn:Hexc.
    + intros [= _ <-]. left. eauto.
    + intros [= _ <-]. by right.
Qed.

Lemma create_retriever_raises_only_RetrieverError_witness :
  (∃ m, RetrieverError "Failed to create retriever: down" = RetrieverError m)
  ∨ isinstance_Exception (RetrieverError "Failed to create retriever: down") = false.
Proof.
  apply (create_retriever_raises_only_RetrieverError
           {| USE_RERANKER := true; USE_CHAIN_FILTER := false; TOP_K := 5;
              create_embeddings := Raise (Exception "down");
              from_existing_collection := Ok example_store;
              create_reranker := Raise (Exception "model not found");
              from_llm := λ _, Raise (Exception "unused") |}
           example_llm None []).
  reflexivity.
Defined.

(** X13. Shape of the retriever built: whenever [create_retriever] returns a
    retriever, its core is the similarity search for the [TOP_K] best
    passages, on the store passed in or else on the existing collection; it
    is wrapped in at most two compression retrievers; and each enabled
    optional stage accounts either for one of them or for one warning
    printed. *)
Theorem create_retriever_shape (env : Environment) (llm : BaseLanguageModel)
    (vector_store : option VectorStore) (warnings : list string)
    (retriever : Retriever) :
  create_retriever env llm vector_store = (warnings, Ok retriever) →
  (∃ vs, innermost retriever = VectorStoreRetriever vs "similarity" (TOP_K env)
         ∧ (vector_store = Some vs
            ∨ (vector_store = None ∧ from_existing_collection env = Ok vs)))
  ∧ (layers retriever ≤ 2)%nat
  ∧ (layers retriever + length warnings = enabled_stages env)%nat.
Proof.
  unfold create_retriever, enabled_stages.
  destruct vector_store as [vs|];
    [|destruct (create_embeddings env) as [[]|e0];
      [destruct (from_existing_collection env) as [vs|e0]|]];
    destruct (USE_RERANKER env);
    try (destruct (create_reranker env) as [c1|e1];
         [|destruct (isinstance_Exception e1) eqn:He1]);
    destruct (USE_CHAIN_FILTER env);
    try (destruct (from_llm env llm) as [c2|e2];
         [|destruct (isinstance_Exception e2) eqn:He2]);
    unfold try_except, mbind, Out_bind, call, print, tell, raise, mret, Out_ret;
    cbn [fst snd app]; rewrite ?He1, ?He2; cbn [fst snd app];
    rewrite ?He1, ?He2; cbn [fst snd app];
    try (destruct (isinstance_Exception e0));
    try (intros [= <- <-]; simpl; split; [eexists; split; eauto|split; lia]);
    try discriminate.
Qed.

Lemma create_retriever_shape_witness :
  (layers example_retriever ≤ 2)%nat
  ∧ (layers example_retriever
     + length ["Warning: Reranker initialization failed: model not found"]
     = enabled_stages example_env)%nat.
Proof.
  apply (create_retriever_shape example_env example_llm None
           ["Warning: Reranker initialization failed: model not found"]
           example_retriever).
  reflexivity.
Defined.

(** ** The HTTP boundary *)

Module AppFacts.

Lemma collect_chunks_from (acc : list string) (events : list PyValue) :
  foldl (λ response_chunks event,
           match event with
           | PyStr s => (response_chunks ++ [s])%list
           | _ => response_chunks
           end) acc events
  = (acc ++ answer_chunks events)%list.
Proof.
  revert acc. induction events as [|ev events IH]; intros acc; simpl.
  - by rewrite app_nil_r.
  - rewrite IH. destruct ev; simpl; [|done..]. by rewrite <- app_assoc.
Qed.

Lemma collect_chunks_answer_chunks (events : list PyValue) :
  collect_chunks events = answer_chunks events.
Proof. unfold collect_chunks. by rewrite collect_chunks_from. Qed.

Lemma answer_chunks_app (l1 l2 : list PyValue) :
  answer_chunks (l1 ++ l2) = (answer_chunks l1 ++ answer_chunks l2)%list.
Proof. unfold answer_chunks. apply omap_app. Qed.

Lemma concat_snoc (l : list string) (x : string) :
  String.concat "" (l ++ [x]) = String.concat "" l ++ x.
Proof.
  induction l as [|y l IH]; [done|].
  destruct l as [|z l].
  - reflexivity.
  - change (String.concat "" ((y :: z :: l) ++ [x]))
      with (y ++ String.concat "" ((z :: l) ++ [x])).
    rewrite IH.
    change (String.concat "" (y :: z :: l)) with (y ++ String.concat "" (z :: l)).
    by rewrite append_assoc.
Qed.

(** [ask_question] is its loop inside its [try]. *)
Lemma ask_question_try (chain : Runnable) (question session_id : string)
    (clock : Z * Z) (σ : State) :
  let feed :=
    (astream_events chain question session_id clock
       ["context_retriever"; "chain_answer"] σ).1 in
  (ask_question chain question session_id clock σ).1
  = try_except (async_for feed.1 feed.2 loop_body) (λ e, tell (error_chunk e)).
Proof.
  unfold ask_question.
  by destruct (astream_events _ _ _ _ _ _) as [[events e] σ'].
Qed.

(** No [Exception] leaves [ask_question]. *)
Lemma ask_question_end (chain : Runnable) (question session_id : string)
    (clock : Z * Z) (σ : State) (e : PyExc) :
  (ask_question chain question session_id clock σ).1.2 = Raise e →
  isinstance_Exception e = false.
Proof.
  rewrite ask_question_try. cbv zeta.
  destruct (async_for _ _ _) as [yielded [[]|e']]; [done|].
  unfold try_except. destruct (isinstance_Exception e') eqn:Hexc; [done|].
  by intros [= <-].
Qed.

(** [create_retriever] on a store that is passed in, when the optional
    stages fail with [Exception]s only. *)
Lemma create_retriever_passed_store (env : Environment) (llm : BaseLanguageModel)
    (vs : VectorStore) :
  (∀ e, create_reranker env = Raise e → isinstance_Exception e = true) →
  (∀ e, from_llm env llm = Raise e → isinstance_Exception e = true) →
  create_retriever env llm (Some vs)
  = ((stage_warning (USE_RERANKER env) (create_reranker env)
        "Warning: Reranker initialization failed: "
      ++ stage_warning (USE_CHAIN_FILTER env) (from_llm env llm)
           "Warning: Chain filter initialization failed: ")%list,
     Ok (stage (USE_CHAIN_FILTER env) (from_llm env llm)
           (stage (USE_RERANKER env) (create_reranker env)
              (base_retriever_of env vs)))).
Proof.
  intros Hrerank Hfilter. unfold create_retriever.
  rewrite (Out_bind_unfold (mret vs)). cbn [fst snd app mret Out_ret].
  rewrite Out_bind_unfold, (stage_block _ _ _ _ Hrerank). cbn [fst snd].
  rewrite Out_bind_unfold, (stage_block _ _ _ _ Hfilter). cbn [fst snd].
  cbn [mret Out_ret fst snd]. by rewrite app_nil_r.
Qed.

End AppFacts.
Import AppFacts.

(** X14. The key check of [app.py] lets a request through exactly when its
    header equals the value of [API_KEY]; everything else is answered 403.
    With [API_KEY] not set, the value is [None]: then a request with no key
    header at all passes, and every request that carries a key is refused. *)
Theorem get_api_key_matches_environment (API_KEY api_key_header : option string) :
  (api_key_header = API_KEY →
   App.get_api_key (App.API_KEYS API_KEY) api_key_header = Return api_key_header)
  ∧ (api_key_header ≠ API_KEY →
     App.get_api_key (App.API_KEYS API_KEY) api_key_header
     = HTTPException 403 "Invalid or missing API Key").
Proof.
  unfold App.get_api_key, App.API_KEYS. split.
  - intros ->. rewrite bool_decide_eq_true_2; [done | by apply list_elem_of_singleton].
  - intros Hne. rewrite bool_decide_eq_false_2; [done|].
    by intros ->%list_elem_of_singleton.
Qed.

Lemma get_api_key_matches_environment_witness :
  App.get_api_key (App.API_KEYS None) None = Return None
  ∧ App.get_api_key (App.API_KEYS None) (Some "secret")
    = HTTPException 403 "Invalid or missing API Key".
Proof.
  split.
  - apply (get_api_key_matches_environment None None). reflexivity.
  - apply (get_api_key_matches_environment None (Some "secret")). discriminate.
Defined.

(** X15. The key check of [app_fastapi.py]: in debug mode it never refuses
    a request, and the key it returns is the header, or ["debug"] when the
    header is missing or empty. Out of debug mode a request without a key
    header is always refused, whatever [API_KEY] is; with [API_KEY] not set
    the one key accepted is ["default-key"]. *)
Theorem get_api_key_fastapi (API_KEY api_key_header : option string) :
  AppFastapi.get_api_key true (AppFastapi.API_KEYS API_KEY) api_key_header
  = Return (Some (or_else api_key_header "debug"))
  ∧ AppFastapi.get_api_key false (AppFastapi.API_KEYS API_KEY) None
    = HTTPException 403 "Invalid or missing API Key"
  ∧ (AppFastapi.get_api_key false (AppFastapi.API_KEYS None) api_key_header
     = Return api_key_header
     ↔ api_key_header = Some "default-key").
Proof.
  unfold AppFastapi.get_api_key, AppFastapi.API_KEYS.
  split; [done|]. split.
  - rewrite bool_decide_eq_false_2; [done|].
    by intros ?%list_elem_of_singleton.
  - simpl. destruct (decide (api_key_header = Some "default-key")) as [->|Hne].
    + by rewrite bool_decide_eq_true_2 by (by apply list_elem_of_singleton).
    + rewrite bool_decide_eq_false_2 by (by intros ?%list_elem_of_singleton).
      split; [discriminate | done].
Qed.

(** X16. The [chat] handler of [app.py] never answers 500 because of the
    pipeline: whatever the chain does, the handler returns a response,
    unless an exception that is not an [Exception] escapes. A failure of
    retrieval or generation reaches the client inside a normal response. *)
Theorem chat_never_500 (qa_chain : Runnable) (request : App.QuestionRequest)
    (timestamp : string) (clock : Z * Z) (σ : State) :
  (∃ response, (App.chat qa_chain request timestamp clock σ).1 = Return response)
  ∨ (∃ e, (App.chat qa_chain request timestamp clock σ).1 = Escape e
          ∧ isinstance_Exception e = false).
Proof.
  unfold App.chat.
  pose proof (ask_question_end qa_chain (App.question request)
                (or_else (App.session_id request) ("session-" ++ timestamp))
                clock σ) as Hend.
  destruct (ask_question _ _ _ _ _) as [[events [[]|e]] σ']; simpl in *.
  - left. eauto.
  - right. rewrite (Hend e eq_refl). eauto.
Qed.

(** X17. The answer of [chat] in [app.py]: when [ask_question] ends
    normally, the response carries the concatenation of the strings it
    yielded, in order, the retrieved documents being left out, and the
    session id of the request, or ["session-"] followed by the timestamp
    when the request has no session id or an empty one; the state is the one
    [ask_question] leaves. *)
Theorem chat_answer (qa_chain : Runnable) (request : App.QuestionRequest)
    (timestamp : string) (clock : Z * Z) (σ : State) :
  let session_id := or_else (App.session_id request) ("session-" ++ timestamp) in
  let r := ask_question qa_chain (App.question request) session_id clock σ in
  r.1.2 = Ok tt →
  App.chat qa_chain request timestamp clock σ
  = (Return {| App.answer := String.concat "" (answer_chunks r.1.1);
               App.response_session_id := session_id |}, r.2).
Proof.
  intros session_id r Hend. unfold App.chat. fold session_id. fold r.
  destruct r as [[events ending] σ']. simpl in Hend. subst ending.
  cbn [fst snd]. by rewrite collect_chunks_answer_chunks.
Qed.

Lemma chat_answer_witness :
  (App.chat (create_chain example_llm example_retriever)
     (App.mkQuestionRequest "rose?" (Some "")) "1730000000.5" (0, 0)
     initial_state).1
  = Return {| App.answer := "Hello";
              App.response_session_id := "session-1730000000.5" |}.
Proof.
  rewrite (chat_answer (create_chain example_llm example_retriever)
             (App.mkQuestionRequest "rose?" (Some "")) "1730000000.5" (0, 0)
             initial_state); reflexivity.
Defined.

(** X18. A failure in the answer: when the feed or the loop of
    [ask_question] raises an [Exception] after the values [yielded], the
    answer of [chat] in [app.py] is the concatenation of the strings yielded
    so far followed by ["Error processing question: "] and the message of
    the exception. *)
Theorem chat_answer_on_failure (qa_chain : Runnable) (request : App.QuestionRequest)
    (timestamp : string) (clock : Z * Z) (σ : State)
    (yielded : list PyValue) (e : PyExc) :
  let session_id := or_else (App.session_id request) ("session-" ++ timestamp) in
  let feed :=
    (astream_events qa_chain (App.question request) session_id clock
       ["context_retriever"; "chain_answer"] σ).1 in
  async_for feed.1 feed.2 loop_body = (yielded, Raise e) →
  isinstance_Exception e = true →
  (App.chat qa_chain request timestamp clock σ).1
  = Return {| App.answer := String.concat "" (answer_chunks yielded)
                            ++ "Error processing question: " ++ str e;
              App.response_session_id := session_id |}.
Proof.
  intros session_id feed Hbody Hexc.
  pose proof (ask_question_try qa_chain (App.question request) session_id
                clock σ) as Hask.
  cbv zeta in Hask. fold feed in Hask. rewrite Hbody in Hask.
  unfold try_except in Hask. rewrite Hexc in Hask. cbn in Hask.
  unfold App.chat. fold session_id.
  destruct (ask_question _ _ _ _ _) as [[events ending] σ'].
  cbn [fst] in Hask. injection Hask as -> ->. cbn [fst].
  rewrite collect_chunks_answer_chunks, answer_chunks_app.
  change (answer_chunks [error_chunk e])
    with ["Error processing question: " ++ str e].
  by rewrite concat_snoc.
Qed.

Lemma chat_answer_on_failure_witness :
  (App.chat (create_chain failing_llm example_retriever)
     (App.mkQuestionRequest "rose?" (Some "s")) "0.0" (0, 0) initial_state).1
  = Return {| App.answer := "HelError processing question: connection reset";
              App.response_session_id := "s" |}.
Proof.
  apply (chat_answer_on_failure (create_chain failing_llm example_retriever)
           (App.mkQuestionRequest "rose?" (Some "s")) "0.0" (0, 0) initial_state
           [PyDocs [rose; fern]; PyStr "Hel"] (Exception "connection reset"));
    reflexivity.
Defined.

(** X19. The [chat] handler of [app_fastapi.py] cannot answer: its request
    model has no [session_id], so reading it raises inside the [try], and
    the refusal before startup is raised inside the same [try]; either way
    the handler ends with [HTTPException] 500, the pipeline is never run
    and the session store is left as it was. *)
Theorem chat_fastapi_always_500 (str_HTTPException : Z → string → string)
    (qa_chain : option Runnable) (request : AppFastapi.QuestionRequest)
    (timestamp : string) (clock : Z * Z) (σ : State) :
  ∃ detail,
    AppFastapi.chat str_HTTPException qa_chain request timestamp clock σ
    = (HTTPException 500 ("Error processing request: " ++ detail), σ).
Proof.
  unfold AppFastapi.chat. destruct qa_chain; eexists; reflexivity.
Qed.

(** X20. Startup in [app.py]: with the vector store that ingestion returns,
    a reranker or chain filter that fails to initialize never fails
    [initialize_qa_chain]: it returns the chain over the retriever of the
    stages that did initialize, having printed their warnings. When
    ingestion itself fails with an [Exception], startup raises
    [HTTPException] 500 with the message of the failure, and nothing is
    printed. *)
Theorem initialize_qa_chain_startup (env : Environment)
    (ingest : result VectorStore) (create_llm : result BaseLanguageModel) :
  (∀ vs llm,
     ingest = Ok vs → create_llm = Ok llm →
     (∀ e, create_reranker env = Raise e → isinstance_Exception e = true) →
     (∀ e, from_llm env llm = Raise e → isinstance_Exception e = true) →
     App.initialize_qa_chain env ingest create_llm
     = ((stage_warning (USE_RERANKER env) (create_reranker env)
           "Warning: Reranker initialization failed: "
         ++ stage_warning (USE_CHAIN_FILTER env) (from_llm env llm)
              "Warning: Chain filter initialization failed: ")%list,
        Return (create_chain llm
                  (stage (USE_CHAIN_FILTER env) (from_llm env llm)
                     (stage (USE_RERANKER env) (create_reranker env)
                        (base_retriever_of env vs))))))
  ∧ (∀ e, ingest = Raise e → isinstance_Exception e = true →
          App.initialize_qa_chain env ingest create_llm
          = ([], HTTPException 500 ("Failed to initialize QA chain: " ++ str e))).
Proof.
  split.
  - intros vs llm -> -> Hrerank Hfilter. unfold App.initialize_qa_chain.
    rewrite (Out_bind_unfold (call (Ok vs))). cbn [fst snd call app].
    rewrite (Out_bind_unfold (call (Ok llm))). cbn [fst snd call app].
    rewrite Out_bind_unfold, create_retriever_passed_store by done.
    cbn [fst snd mret Out_ret]. by rewrite app_nil_r.
  - intros e -> Hexc. unfold App.initialize_qa_chain.
    rewrite Out_bind_unfold. cbn [fst snd call]. by rewrite Hexc.
Qed.

Lemma initialize_qa_chain_startup_witness :
  App.initialize_qa_chain example_env (Ok example_store) (Ok example_llm)
  = (["Warning: Reranker initialization failed: model not found"],
     Return (create_chain example_llm example_retriever))
  ∧ App.initialize_qa_chain example_env (Raise (Exception "no data"))
      (Ok example_llm)
    = ([], HTTPException 500 "Failed to initialize QA chain: no data").
Proof.
  destruct (initialize_qa_chain_startup example_env (Ok example_store)
              (Ok example_llm)) as [Hok _].
  destruct (initialize_qa_chain_startup example_env
              (Raise (Exception "no data")) (Ok example_llm)) as [_ Hfail].
  split.
  - apply (Hok example_store example_llm); try reflexivity;
      intros e [= <-]; reflexivity.
  - apply (Hfail (Exception "no data")); reflexivity.
Defined.

(** ** The conversion of catalog items *)

Module IngestorFacts.
Import Ingestor.

Section Conversion.

Variable str_of : JValue → string.
Variable join_error : list JValue → string.
Variable isoformat : nat → string.

Lemma missing_fields_has_required (item : gmap string JValue) :
  missing_fields item = [] ↔ has_required item = true.
Proof.
  unfold missing_fields, has_required, required_fields. simpl.
  destruct (item !! "title"), (item !! "description"), (item !! "price");
    simpl; split; (done || discriminate).
Qed.

Lemma transform_func_raises (transform : Transform) (x : JValue) (e : PyExc) :
  transform_func join_error transform x = Raise e → isinstance_Exception e = true.
Proof.
  unfold transform_func, join_values.
  destruct transform, x; try discriminate.
  destruct (strings_of elements); [discriminate|]. by intros [= <-].
Qed.

(** The field loops print nothing, only add lines, and raise
    [Exception]s only. *)
Lemma add_fields_spec (fields : list (string * string * Transform))
    (item : gmap string JValue) (content_parts : list string) :
  (add_fields str_of join_error fields item content_parts).1 = []
  ∧ match (add_fields str_of join_error fields item content_parts).2 with
    | Ok parts => ∃ more, parts = (content_parts ++ more)%list
    | Raise e => isinstance_Exception e = true
    end.
Proof.
  revert content_parts.
  induction fields as [|[[field label] transform] fields IH];
    intros content_parts; cbn [add_fields].
  - split; [done|]. exists []. by rewrite app_nil_r.
  - destruct (item !! field) as [v|]; [|apply IH].
    destruct (truthy v); [|apply IH].
    rewrite Out_bind_unfold. cbn [fst snd call].
    destruct (transform_func join_error transform v) as [shown|e] eqn:Ht.
    + destruct (IH (content_parts
                    ++ [(label ++ ": " ++ format_value str_of shown)%string])%list)
        as [Hlog Hres].
      cbn [fst snd app]. split; [exact Hlog|].
      destruct (add_fields _ _ _ _ _).2 as [parts|e]; [|done].
      destruct Hres as [more ->]. rewrite <- app_assoc. eauto.
    + split; [done|]. by eapply transform_func_raises.
Qed.

(** The field loops see an item only through its visible fields. *)
Lemma add_fields_visible (fields : list (string * string * Transform))
    (item1 item2 : gmap string JValue) (content_parts : list string) :
  (∀ field, visible item1 field = visible item2 field) →
  add_fields str_of join_error fields item1 content_parts
  = add_fields str_of join_error fields item2 content_parts.
Proof.
  intros Hsame. revert content_parts.
  induction fields as [|[[field label] transform] fields IH];
    intros content_parts; [done|]. cbn [add_fields].
  pose proof (Hsame field) as Hfield. unfold visible in Hfield.
  destruct (item1 !! field) as [v1|], (item2 !! field) as [v2|];
    try destruct (truthy v1) eqn:H1; try destruct (truthy v2) eqn:H2;
    try discriminate; try apply IH.
  injection Hfield as ->. rewrite !Out_bind_unfold. cbn [fst snd call].
  destruct (transform_func join_error transform v2); [|done].
  by rewrite IH.
Qed.

Lemma join_header (a b c : string) (tail : list string) :
  ∃ rest, join nl (a :: b :: c :: tail) = a ++ nl ++ b ++ nl ++ c ++ rest
          ∧ (rest = "" ∨ ∃ r, rest = nl ++ r).
Proof.
  destruct tail as [|t tail].
  - exists "". split; [|by left]. unfold join. simpl.
    assert (Hc : c ++ "" = c).
    { induction c as [|x c IH]; [done|]. by rewrite append_cons, IH. }
    by rewrite Hc.
  - exists (nl ++ join nl (t :: tail)). split; [done|]. right. eauto.
Qed.

(** The two [add_fields] loops and the final join, from any content parts
    that start with three lines. *)
Lemma content_tail_spec (a b c : string) (extra : list string)
    (item : gmap string JValue) :
  let r : Out LogRecord string :=
    content_parts ← add_fields str_of join_error optional_fields item
                      (a :: b :: c :: extra);
    content_parts ← add_fields str_of join_error tag_fields item content_parts;
    mret (join nl content_parts) in
  r.1 = []
  ∧ match r.2 with
    | Ok content =>
        ∃ rest, content = (a ++ nl ++ b ++ nl ++ c) ++ rest
                ∧ (rest = "" ∨ ∃ r, rest = nl ++ r)
    | Raise e => isinstance_Exception e = true
    end.
Proof.
  cbv zeta. rewrite Out_bind_unfold.
  destruct (add_fields_spec optional_fields item (a :: b :: c :: extra))
    as [Hlog1 Hres1].
  rewrite Hlog1. destruct (add_fields _ _ optional_fields _ _).2 as [parts1|e1];
    [|done].
  destruct Hres1 as [more1 ->]. cbn [fst snd app].
  rewrite Out_bind_unfold.
  destruct (add_fields_spec tag_fields item (a :: b :: c :: extra ++ more1))
    as [Hlog2 Hres2].
  rewrite Hlog2. destruct (add_fields _ _ tag_fields _ _).2 as [parts2|e2];
    [|done].
  destruct Hres2 as [more2 ->]. cbn [fst snd app mret Out_ret].
  split; [done|].
  destruct (join_header a b c ((extra ++ more1) ++ more2)) as (rest & Hjoin & Hrest).
  exists rest. split; [|exact Hrest]. rewrite Hjoin. by rewrite !append_assoc.
Qed.

(** The content of an item: nothing is printed; the content starts with
    the three header lines; only [Exception]s are raised. *)
Lemma item_content_spec (item : gmap string JValue) :
  (item_content str_of join_error item).1 = []
  ∧ match (item_content str_of join_error item).2 with
    | Ok content =>
        ∃ rest, content = header str_of item ++ rest
                ∧ (rest = "" ∨ ∃ r, rest = nl ++ r)
    | Raise e => isinstance_Exception e = true
    end.
Proof.
  assert (Hheader : ∀ x y z,
    "Title: " ++ x ++ nl ++ "Description: " ++ y ++ nl ++ "Price: $" ++ z
    = ("Title: " ++ x) ++ nl ++ ("Description: " ++ y) ++ nl ++ ("Price: $" ++ z)).
  { intros x y z. by rewrite !append_assoc. }
  unfold item_content, header. cbv zeta. rewrite Hheader.
  destruct (item !! "discountPercentage"), (item !! "markedPrice");
    cbn [app]; apply content_tail_spec.
Qed.

Lemma item_content_result_Ok (item : gmap string JValue) (content : string) :
  (item_content str_of join_error item).2 = Ok content →
  item_content str_of join_error item = ([], Ok content).
Proof.
  intros H. destruct (item_content_spec item) as [Hlog _].
  destruct (item_content _ _ _) as [log r]. simpl in *. by subst.
Qed.

(** The loop over the items: the documents built are those of the items
    that have the required fields, in order, after the documents there
    were. *)
Lemma convert_items_spec (json_data : list (gmap string JValue))
    (documents result : list IngestedDocument) :
  (convert_items str_of join_error isoformat json_data documents).2 = Ok result →
  ∃ new, result = (documents ++ new)%list
         ∧ Forall2 (built_from str_of join_error)
                   new (List.filter has_required json_data).
Proof.
  revert documents.
  induction json_data as [|item rest IH]; intros documents; cbn [convert_items].
  - intros [= <-]. exists []. split; [by rewrite app_nil_r | constructor].
  - cbn [List.filter].
    destruct (missing_fields item) as [|f fs] eqn:Hmiss.
    + apply missing_fields_has_required in Hmiss. rewrite Hmiss.
      rewrite Out_bind_unfold.
      destruct (item_content str_of join_error item) as [log [content|e]] eqn:Hc;
        cbn [fst snd]; [|discriminate].
      intros Hrest. apply IH in Hrest as (new & -> & Hnew).
      eexists (_ :: new). split; [by rewrite <- app_assoc|].
      constructor; [|exact Hnew]. split; [by rewrite Hc | simpl; eauto].
    + assert (Hreq : has_required item = false).
      { destruct (has_required item) eqn:Hreq; [|done].
        apply missing_fields_has_required in Hreq. congruence. }
      rewrite Hreq, Out_bind_unfold. cbn [fst snd tell]. apply IH.
Qed.

(** One item that has the required fields and whose content cannot be
    built makes the loop fail. *)
Lemma convert_items_fails (json_data : list (gmap string JValue))
    (documents : list IngestedDocument) (bad : gmap string JValue) (e : PyExc) :
  In bad json_data → has_required bad = true →
  (item_content str_of join_error bad).2 = Raise e →
  ∃ e', (convert_items str_of join_error isoformat json_data documents).2 = Raise e'
        ∧ isinstance_Exception e' = true.
Proof.
  intros Hin Hreq Hbad. revert documents.
  induction json_data as [|item rest IH]; intros documents; [done|].
  cbn [convert_items].
  destruct (missing_fields item) as [|f fs] eqn:Hmiss.
  - rewrite Out_bind_unfold.
    destruct (item_content_spec item) as [_ Hspec].
    destruct (item_content str_of join_error item).2 as [content|e0] eqn:Hc.
    + destruct Hin as [->|Hin]; [congruence|]. apply IH, Hin.
    + eauto.
  - destruct Hin as [->|Hin].
    + apply missing_fields_has_required in Hreq. congruence.
    + rewrite Out_bind_unfold. cbn [fst snd tell]. apply IH, Hin.
Qed.

(** The content of an item depends on the item only through the five
    keys read directly and through its visible fields. *)
Lemma item_content_ext (item1 item2 : gmap string JValue) :
  item1 !! "title" = item2 !! "title" →
  item1 !! "description" = item2 !! "description" →
  item1 !! "price" = item2 !! "price" →
  item1 !! "markedPrice" = item2 !! "markedPrice" →
  item1 !! "discountPercentage" = item2 !! "discountPercentage" →
  (∀ field, visible item1 field = visible item2 field) →
  item_content str_of join_error item1 = item_content str_of join_error item2.
Proof.
  intros Ht Hd Hp Hm Hdp Hvisible. unfold item_content, get.
  rewrite Ht, Hd, Hp, Hm, Hdp. cbv zeta.
  rewrite (add_fields_visible optional_fields item1 item2 _ Hvisible).
  rewrite !Out_bind_unfold.
  destruct (add_fields _ _ optional_fields item2 _).2 as [parts|e]; [|done].
  by rewrite (add_fields_visible tag_fields item1 item2 _ Hvisible).
Qed.

(** A field shown joined whose value is a list, not empty, with an element
    that is not a string makes the loop over the fields raise. *)
Lemma add_fields_raises (fields : list (string * string * Transform))
    (item : gmap string JValue) (content_parts : list string)
    (field label sep : string) (elements : list JValue) :
  In (field, label, joined sep) fields →
  item !! field = Some (JList elements) →
  elements ≠ [] → strings_of elements = None →
  ∃ e, (add_fields str_of join_error fields item content_parts).2 = Raise e.
Proof.
  intros Hin Hfield Hne Hstrings. revert content_parts.
  induction fields as [|[[field' label'] transform'] fields IH];
    intros content_parts; [done|]. cbn [add_fields].
  destruct Hin as [[= -> -> ->]|Hin].
  - rewrite Hfield. cbn [truthy].
    destruct elements as [|element elements]; [done|].
    rewrite Out_bind_result. unfold transform_func, join_values.
    rewrite Hstrings. cbn [call snd]. eauto.
  - destruct (item !! field') as [v|]; [|by apply IH].
    destruct (truthy v); [|by apply IH].
    rewrite Out_bind_result. cbn [call snd].
    destruct (transform_func join_error transform' v); [by apply IH | eauto].
Qed.

Lemma item_content_raises (item : gmap string JValue)
    (field label sep : string) (elements : list JValue) :
  In (field, label, joined sep) (optional_fields ++ tag_fields)%list →
  item !! field = Some (JList elements) →
  elements ≠ [] → strings_of elements = None →
  ∃ e, (item_content str_of join_error item).2 = Raise e.
Proof.
  intros Hin Hfield Hne Hstrings. unfold item_content. cbv zeta.
  rewrite Out_bind_result.
  apply in_app_or in Hin as [Hin|Hin].
  - match goal with
    | |- context [add_fields _ _ optional_fields item ?content_parts] =>
        destruct (add_fields_raises optional_fields item content_parts
                    field label sep elements Hin Hfield Hne Hstrings) as [e ->]
    end.
    eauto.
  - destruct (add_fields _ _ optional_fields item _).2 as [parts|e]; [|eauto].
    rewrite Out_bind_result.
    destruct (add_fields_raises tag_fields item parts
                field label sep elements Hin Hfield Hne Hstrings) as [e ->].
    eauto.
Qed.

(** The records of the loop when it ends normally: one warning for each
    item that misses a required field. *)
Lemma convert_items_log (json_data : list (gmap string JValue))
    (documents result : list IngestedDocument) :
  (convert_items str_of join_error isoformat json_data documents).2 = Ok result →
  (convert_items str_of join_error isoformat json_data documents).1
  = map (missing_warning str_of)
        (List.filter (λ item, negb (has_required item)) json_data).
Proof.
  revert documents.
  induction json_data as [|item rest IH]; intros documents; cbn [convert_items];
    [done|].
  cbn [List.filter].
  destruct (missing_fields item) as [|f fs] eqn:Hmiss.
  - pose proof Hmiss as Hreq. apply missing_fields_has_required in Hreq.
    rewrite Hreq. cbn [negb]. rewrite Out_bind_unfold.
    destruct (item_content_spec item) as [Hlog _]. rewrite Hlog.
    destruct (item_content str_of join_error item).2 as [content|e];
      cbn [fst snd app]; [apply IH | discriminate].
  - assert (Hreq : has_required item = false).
    { destruct (has_required item) eqn:Hreq; [|done].
      apply missing_fields_has_required in Hreq. congruence. }
    rewrite Hreq. cbn [negb map]. rewrite Out_bind_unfold.
    cbn [fst snd tell app]. intros Hrest. rewrite (IH _ Hrest).
    unfold missing_warning. by rewrite Hmiss.
Qed.

End Conversion.

End IngestorFacts.

(** X21. The documents of a conversion that returns: one document for each
    item that has the three required fields, in the order of the items; the
    items that miss a required field give no document.  The content of a
    document is the content built from its item, and its metadata are the
    source, the title, price and category of the item and a timestamp. *)
Theorem convert_to_documents_keeps_required
    (str_of : Ingestor.JValue → string) (join_error : list Ingestor.JValue → string)
    (isoformat : nat → string) (json_data : list Ingestor.Item)
    (documents : list Ingestor.IngestedDocument) :
  (Ingestor.convert_to_documents str_of join_error isoformat json_data).2
  = Ok documents →
  Forall2 (Ingestor.built_from str_of join_error) documents
          (List.filter Ingestor.has_required json_data).
Proof.
  unfold Ingestor.convert_to_documents. rewrite Out_bind_unfold.
  match goal with
  | |- context [match ?r with Ok _ => _ | Raise _ => _ end] =>
      destruct r as [result|e] eqn:Hloop
  end.
  - rewrite Out_bind_unfold. cbn [try_except fst snd tell mret Out_ret app].
    intros [= <-].
    apply IngestorFacts.convert_items_spec in Hloop as (new & -> & Hnew).
    exact Hnew.
  - unfold try_except. destruct (isinstance_Exception e); [|discriminate].
    rewrite Out_bind_unfold. cbn [fst snd tell raise]. discriminate.
Qed.

Lemma convert_to_documents_keeps_required_witness :
  ∃ rose_document,
    (Ingestor.convert_to_documents Catalog.example_str Catalog.example_join_error
       Catalog.example_isoformat [Catalog.catalog_rose; Catalog.catalog_fern]).2
    = Ok [rose_document]
    ∧ Forall2 (Ingestor.built_from Catalog.example_str Catalog.example_join_error)
        [rose_document]
        (List.filter Ingestor.has_required
                     [Catalog.catalog_rose; Catalog.catalog_fern]).
Proof.
  eexists. split; [vm_compute; reflexivity|].
  apply (convert_to_documents_keeps_required _ _ Catalog.example_isoformat).
  vm_compute. reflexivity.
Defined.

(** X22. The content built for an item starts with its title, description
    and price lines, in this order, whatever fields follow: the rest of the
    content is empty or starts on a new line.  Building the content logs
    nothing. *)
Theorem item_content_starts_with_header
    (str_of : Ingestor.JValue → string) (join_error : list Ingestor.JValue → string)
    (item : Ingestor.Item) (content : string) :
  (Ingestor.item_content str_of join_error item).2 = Ok content →
  (Ingestor.item_content str_of join_error item).1 = []
  ∧ ∃ rest, content = Ingestor.header str_of item ++ rest
            ∧ (rest = "" ∨ ∃ r, rest = nl ++ r).
Proof.
  intros Hcontent.
  destruct (IngestorFacts.item_content_spec str_of join_error item) as [Hlog Hspec].
  rewrite Hcontent in Hspec. auto.
Qed.

Lemma item_content_starts_with_header_witness :
  ∃ rest,
    "Title: Rose" ++ nl ++ "Description: Red" ++ nl ++ "Price: $5.5" ++ nl
    ++ "Size: S, M" ++ nl ++ "tag: x"
    = Ingestor.header Catalog.example_str Catalog.catalog_rose ++ rest
    ∧ (rest = "" ∨ ∃ r, rest = nl ++ r).
Proof.
  apply (item_content_starts_with_header Catalog.example_str
           Catalog.example_join_error Catalog.catalog_rose).
  vm_compute. reflexivity.
Defined.

(** X23. A field of the two loops (an optional field or a tag field) whose
    value is false in Python's sense (0, the empty string, the empty list,
    [None], [False]) is left out of the content exactly as if the item did
    not have the field. *)
Theorem false_field_is_left_out
    (str_of : Ingestor.JValue → string) (join_error : list Ingestor.JValue → string)
    (item : Ingestor.Item) (field : string) (v : Ingestor.JValue) :
  In field Ingestor.conditional_fields →
  Ingestor.truthy v = false →
  Ingestor.item_content str_of join_error (<[field := v]> item)
  = Ingestor.item_content str_of join_error (delete field item).
Proof.
  intros Hin Hfalse.
  assert (Hkeys :
    forallb (λ f, negb (String.eqb f "title") && negb (String.eqb f "description")
                  && negb (String.eqb f "price") && negb (String.eqb f "markedPrice")
                  && negb (String.eqb f "discountPercentage"))
            Ingestor.conditional_fields = true) by reflexivity.
  rewrite forallb_forall in Hkeys. apply Hkeys in Hin.
  rewrite !andb_true_iff, !negb_true_iff, !String.eqb_neq in Hin.
  destruct Hin as [[[[Ht Hd] Hp] Hm] Hdp].
  apply IngestorFacts.item_content_ext;
    try (rewrite lookup_insert_ne, lookup_delete_ne by done; reflexivity).
  intros f. unfold Ingestor.visible.
  destruct (decide (f = field)) as [->|Hne].
  - by rewrite lookup_insert_eq, lookup_delete_eq, Hfalse.
  - by rewrite lookup_insert_ne, lookup_delete_ne.
Qed.

Lemma false_field_is_left_out_witness :
  (Ingestor.item_content Catalog.example_str Catalog.example_join_error
     (<["quantity" := Ingestor.JInt 0]> Catalog.catalog_rose)).2
  = (Ingestor.item_content Catalog.example_str Catalog.example_join_error
       (delete "quantity" Catalog.catalog_rose)).2.
Proof.
  rewrite (false_field_is_left_out Catalog.example_str Catalog.example_join_error
             Catalog.catalog_rose "quantity" (Ingestor.JInt 0)).
  - reflexivity.
  - vm_compute. tauto.
  - reflexivity.
Defined.

(** X24. All or nothing: one item that has the required fields and, in a
    field shown joined (size, benefits, propagation method, the tag
    fields), a list that is not empty and has an element that is not a
    string makes the conversion of the entire list of items fail with
    ["Document conversion failed: ..."]; no document is returned, whatever the
    other items are. *)
Theorem convert_to_documents_all_or_nothing
    (str_of : Ingestor.JValue → string) (join_error : list Ingestor.JValue → string)
    (isoformat : nat → string) (json_data : list Ingestor.Item)
    (bad : Ingestor.Item) (field label sep : string)
    (elements : list Ingestor.JValue) :
  In bad json_data →
  Ingestor.has_required bad = true →
  In (field, label, Ingestor.joined sep)
     (Ingestor.optional_fields ++ Ingestor.tag_fields)%list →
  bad !! field = Some (Ingestor.JList elements) →
  elements ≠ [] →
  Ingestor.strings_of elements = None →
  ∃ message,
    (Ingestor.convert_to_documents str_of join_error isoformat json_data).2
    = Raise (Exception ("Document conversion failed: " ++ message)).
Proof.
  intros Hin Hreq Hfield Hvalue Hne Hstrings.
  destruct (IngestorFacts.item_content_raises str_of join_error bad
              field label sep elements Hfield Hvalue Hne Hstrings) as [e He].
  destruct (IngestorFacts.convert_items_fails str_of join_error isoformat
              json_data [] bad e Hin Hreq He) as (e' & Hloop & Hexc).
  unfold Ingestor.convert_to_documents. rewrite Out_bind_unfold.
  match goal with
  | |- context [match ?r with Ok _ => _ | Raise _ => _ end] =>
      replace r with (@Raise (list Ingestor.IngestedDocument) e')
  end.
  unfold try_except. rewrite Hexc, Out_bind_unfold. cbn [fst snd tell raise].
  eauto.
Qed.

Lemma convert_to_documents_all_or_nothing_witness :
  ∃ message,
    (Ingestor.convert_to_documents Catalog.example_str Catalog.example_join_error
       Catalog.example_isoformat [Catalog.catalog_rose; Catalog.catalog_moss]).2
    = Raise (Exception ("Document conversion failed: " ++ message)).
Proof.
  apply (convert_to_documents_all_or_nothing Catalog.example_str
           Catalog.example_join_error Catalog.example_isoformat
           [Catalog.catalog_rose; Catalog.catalog_moss] Catalog.catalog_moss
           "benefits" "Benefits" " " [Ingestor.JInt 1]).
  - right. left. reflexivity.
  - reflexivity.
  - vm_compute. tauto.
  - reflexivity.
  - discriminate.
  - reflexivity.
Defined.

(** X25. The log of a conversion that returns: one warning for each item
    that misses a required field, naming the item, in the order of the
    items, and then one record with the number of documents, which is the
    number of items that have the required fields. *)
Theorem convert_to_documents_log
    (str_of : Ingestor.JValue → string) (join_error : list Ingestor.JValue → string)
    (isoformat : nat → string) (json_data : list Ingestor.Item)
    (documents : list Ingestor.IngestedDocument) :
  (Ingestor.convert_to_documents str_of join_error isoformat json_data).2
  = Ok documents →
  (Ingestor.convert_to_documents str_of join_error isoformat json_data).1
  = (map (Ingestor.missing_warning str_of)
         (List.filter (λ item, negb (Ingestor.has_required item)) json_data)
     ++ [("INFO",
          ("Successfully converted "
           ++ str_of (Ingestor.JInt
                        (Z.of_nat (length (List.filter Ingestor.has_required
                                                       json_data))))
           ++ " items to documents")%string)])%list.
Proof.
  unfold Ingestor.convert_to_documents. rewrite Out_bind_unfold.
  match goal with
  | |- context [match ?r with Ok _ => _ | Raise _ => _ end] =>
      destruct r as [result|e] eqn:Hloop
  end.
  - rewrite Out_bind_unfold. cbn [try_except fst snd tell mret Out_ret app].
    intros _.
    pose proof (IngestorFacts.convert_items_log str_of join_error isoformat
                  json_data [] result Hloop) as Hlog.
    apply IngestorFacts.convert_items_spec in Hloop as (new & -> & Hnew).
    apply Forall2_length in Hnew. cbn [app].
    f_equal; [exact Hlog | by rewrite Hnew].
  - unfold try_except. destruct (isinstance_Exception e); [|discriminate].
    rewrite Out_bind_unfold. cbn [fst snd tell raise]. discriminate.
Qed.

Lemma convert_to_documents_log_witness :
  (Ingestor.convert_to_documents Catalog.example_str Catalog.example_join_error
     Catalog.example_isoformat [Catalog.catalog_rose; Catalog.catalog_fern]).1
  = [("WARNING", "Missing required fields ['description'] in item: Fern");
     ("INFO", "Successfully converted 1 items to documents")].
Proof.
  erewrite (convert_to_documents_log Catalog.example_str Catalog.example_join_error
              Catalog.example_isoformat [Catalog.catalog_rose; Catalog.catalog_fern]).
  - vm_compute. reflexivity.
  - vm_compute. reflexivity.
Defined.
